(** * Word batches: validation, submission and listing

    A shallow embedding of the words router of the server
    ([src/routes/words.js], and the second copy of the router kept under
    [backend/routes/words.js]) together with the [Word] and [User] models,
    and the properties of the batch normaliser, the conflict detector, the
    count gate, the submitter and the listing query.

    Conventions of the model.
    - A JavaScript string is a sequence of code units; the model carries the
      code units U+0000..U+00FF (one [ascii] each), on which [trim] and
      [toLowerCase] are written out in full.
    - A JavaScript number is an integer ([Z]) that prints in plain decimal
      (magnitude below 10^21).
    - The store is a MongoDB collection, modelled as the list of its
      documents in insertion order; the unique index on [wordLower]
      declared by the [Word] schema is in force. Documents have every field
      of their schema, and the identity of the requester is a well-formed
      identifier, so that no document of a batch is refused for its shape.
    - A handler is a computation over the world: the two collections, and
      the writes other requests perform while the handler is suspended at
      an [await]. A store operation runs in one step once the handler
      resumes. The store answers every operation; the only error a write
      raises is the duplicate-key error (code 11000), and a query throws
      only for a filter it cannot use.
    - The parsing of dates and the regular expressions of the store are
      taken from the platform, as parameters of the listing. *)

From Stdlib Require Import ZArith Ascii String.
From stdpp Require Import base list strings gmap pretty sorting.

#[local] Set Warnings "-register-all,-clear-no-such-hyp".

Local Open Scope string_scope.
Local Open Scope list_scope.

(** ** JavaScript strings and values *)

Module Js.

(** White space and line terminators removed by [String.prototype.trim],
    among the code units below U+0100: TAB, LF, VT, FF, CR, SP, NBSP. *)
Definition isWhiteSpace (c : ascii) : bool :=
  match N_of_ascii c with
  | 9%N | 10%N | 11%N | 12%N | 13%N | 32%N | 160%N => true
  | _ => false
  end.

Fixpoint trimStart (s : string) : string :=
  match s with
  | EmptyString => EmptyString
  | String c r => if isWhiteSpace c then trimStart r else s
  end.

Fixpoint trimEnd (s : string) : string :=
  match s with
  | EmptyString => EmptyString
  | String c r =>
      match trimEnd r with
      | EmptyString => if isWhiteSpace c then EmptyString else String c EmptyString
      | r' => String c r'
      end
  end.

Definition trim (s : string) : string := trimEnd (trimStart s).

(** Lower-case mapping of one code unit: A..Z, and the Latin-1 capitals
    U+00C0..U+00DE except the multiplication sign U+00D7, move up by 32. *)
Definition lowerChar (c : ascii) : ascii :=
  let n := N_of_ascii c in
  if ((65 <=? n) && (n <=? 90) ||
      (192 <=? n) && (n <=? 222) && negb (n =? 215))%N
  then ascii_of_N (n + 32)
  else c.

Fixpoint toLowerCase (s : string) : string :=
  match s with
  | EmptyString => EmptyString
  | String c r => String (lowerChar c) (toLowerCase r)
  end.

(** The values a JSON request body can carry, and [undefined]. *)
Inductive Value : Type :=
| Undefined
| Null
| Bool (b : bool)
| Num (n : Z)
| Str (s : string)
| Arr (items : list Value)
| Obj (fields : list (string * Value)).

(** [Boolean(v)] *)
Definition truthy (v : Value) : bool :=
  match v with
  | Undefined | Null => false
  | Bool b => b
  | Num n => negb (n =? 0)%Z
  | Str s => negb (String.eqb s "")
  | Arr _ | Obj _ => true
  end.

(** [Array.prototype.join(",")] on the texts of the elements. *)
Fixpoint joinComma (l : list string) : string :=
  match l with
  | [] => ""
  | [x] => x
  | x :: r => x ++ "," ++ joinComma r
  end.

(** [String(v)]. An array prints its elements separated by commas, with
    [null] and [undefined] elements printed empty; a plain object prints
    as [[object Object]]. *)
Fixpoint toString (v : Value) : string :=
  match v with
  | Undefined => "undefined"
  | Null => "null"
  | Bool true => "true"
  | Bool false => "false"
  | Num n => pretty n
  | Str s => s
  | Arr items =>
      joinComma
        (List.map (fun x => match x with
                            | Undefined | Null => ""
                            | _ => toString x
                            end) items)
  | Obj _ => "[object Object]"
  end.

(** [n] in decimal, padded with zeros to [width] digits. *)
Definition pad (width : nat) (n : Z) : string :=
  let digits := pretty (Z.to_N n) in
  String.concat "" (replicate (width - String.length digits) "0") +:+ digits.

(** [date.toISOString()] of the instant [ms] milliseconds after the epoch:
    the days are turned into a civil date of the proleptic Gregorian
    calendar; a year outside 0..9999 is printed with a sign and six
    digits. *)
Definition toISOString (ms : Z) : string :=
  let day := (ms / 86400000)%Z in
  let rest := (ms mod 86400000)%Z in
  let z := (day + 719468)%Z in
  let era := (z / 146097)%Z in
  let doe := (z - era * 146097)%Z in
  let yoe := ((doe - doe / 1460 + doe / 36524 - doe / 146096) / 365)%Z in
  let doy := (doe - (365 * yoe + yoe / 4 - yoe / 100))%Z in
  let mp := ((5 * doy + 2) / 153)%Z in
  let d := (doy - (153 * mp + 2) / 5 + 1)%Z in
  let m := (if mp <? 10 then mp + 3 else mp - 9)%Z in
  let y := (yoe + era * 400 + (if m <=? 2 then 1 else 0))%Z in
  let year := if (0 <=? y)%Z && (y <=? 9999)%Z then pad 4 y
              else (if (y <? 0)%Z then "-" else "+") +:+ pad 6 (Z.abs y) in
  year +:+ "-" +:+ pad 2 m +:+ "-" +:+ pad 2 d
  +:+ "T" +:+ pad 2 (rest / 3600000) +:+ ":" +:+ pad 2 (rest / 60000 mod 60)
  +:+ ":" +:+ pad 2 (rest / 1000 mod 60) +:+ "." +:+ pad 3 (rest mod 1000) +:+ "Z".

(** [Array.from(new Set(l))]: the distinct elements of [l], each at the
    place of its first occurrence. *)
Definition setAdd (acc : list string) (x : string) : list string :=
  if bool_decide (x ∈ acc) then acc else acc ++ [x].

Definition arrayFromSet (l : list string) : list string :=
  fold_left setAdd l [].

End Js.

(** ** The batch normaliser and the conflict report
    ([normalizeList] and [conflictsObj] have the same text in both copies of
    the router.) *)

Record NormalizedList := { cleaned : list string; lowers : list string }.

Record Conflicts := { db : list string; inBatch : list string }.

(** [String(s || "")] *)
Definition textOf (s : Js.Value) : string :=
  if Js.truthy s then Js.toString s else "".

(** [String(s || "").trim()] *)
Definition coerce (s : Js.Value) : string := Js.trim (textOf s).

(** [filter(Boolean)] on strings keeps the non-empty ones. *)
Definition nonEmpty (s : string) : bool := negb (String.eqb s "").

(** [normalizeList(items = [])] *)
Definition normalizeList (items : Js.Value) : NormalizedList :=
  let cleaned :=
    match items with
    | Js.Arr l => List.filter nonEmpty (List.map coerce l)
    | _ => []
    end in
  {| cleaned := cleaned; lowers := List.map Js.toLowerCase cleaned |}.


(** [conflictsObj(db = [], inBatch = [])] *)
Definition conflictsObj (db inBatch : list string) : Conflicts :=
  {| db := Js.arrayFromSet (List.map Js.toLowerCase db);
     inBatch := Js.arrayFromSet (List.map Js.toLowerCase inBatch) |}.

(** ** The collections *)

(** [models/Word.js]: the schema of a word document. [learned] and [notes]
    take their schema defaults when a document is created. *)
Module Word.
Record Doc := {
  _id : string;
  userId : string;
  word : string;
  wordLower : string;
  addedAt : Z;
  learned : bool;
  notes : string
}.

(** The object literal the submit handler builds for each cleaned entry. *)
Record New := {
  new_userId : string;
  new_word : string;
  new_wordLower : string;
  new_addedAt : Z
}.

Definition create (id : string) (n : New) : Doc :=
  {| _id := id; userId := new_userId n; word := new_word n;
     wordLower := new_wordLower n; addedAt := new_addedAt n;
     learned := false; notes := "" |}.

(** [wordSchema.index({ wordLower: 1 }, { unique: true })]: a write whose
    [wordLower] is already in the collection is refused. *)
Definition taken (coll : list Doc) (key : string) : bool :=
  bool_decide (key ∈ List.map wordLower coll).

Definition insertOne (coll : list Doc) (d : Doc) : option (list Doc) :=
  if taken coll (wordLower d) then None else Some (coll ++ [d]).

(** The bulk insert of the store under [{ ordered: true }], which the
    router runs outside any transaction: the documents are written one by
    one, in order, and the insert stops at the first one the index refuses;
    the documents written before it stay, the ones after it are not
    attempted. The result is the collection afterwards and whether every
    document was written. *)
Fixpoint insertOrdered (coll : list Doc) (docs : list Doc)
  : list Doc * bool :=
  match docs with
  | [] => (coll, true)
  | d :: rest =>
      match insertOne coll d with
      | None => (coll, false)
      | Some coll' => insertOrdered coll' rest
      end
  end.
End Word.

(** [models/User.js]: the fields of a user document the router reads. *)
Module User.
Record Doc := {
  _id : string;
  name : option string;
  email : string
}.
End User.

(** ** Handlers as computations over the world *)

(** The world a handler runs in: the two collections, and for each of the
    handler's coming suspension points the word documents other requests
    try to write while it is suspended. *)
Record World := {
  words : list Word.Doc;
  users : list User.Doc;
  others : list (list Word.Doc)
}.

(** A thrown error; [code] is [err.code] ([undefined] when absent). *)
Record Error := { code : option Z }.

Definition E11000 : Error := {| code := Some 11000%Z |}.
Definition TypeError : Error := {| code := None |}.
Definition CastError : Error := {| code := None |}.

Inductive Outcome (A : Type) : Type :=
| Returned (a : A)
| Thrown (e : Error).
Arguments Returned {A} a.
Arguments Thrown {A} e.

Definition M (A : Type) : Type := World -> Outcome A * World.

Definition ret {A} (a : A) : M A := fun w => (Returned a, w).

Definition throw {A} (e : Error) : M A := fun w => (Thrown e, w).

Definition bind {A B} (c : M A) (k : A -> M B) : M B :=
  fun w =>
    match c w with
    | (Returned a, w') => k a w'
    | (Thrown e, w') => (Thrown e, w')
    end.

(** [try { body } catch (err) { handler }]: what [body] wrote before it
    threw stays written. *)
Definition tryCatch {A} (body : M A) (handler : Error -> M A) : M A :=
  fun w =>
    match body w with
    | (Returned a, w') => (Returned a, w')
    | (Thrown e, w') => handler e w'
    end.

Notation "'let*' x ':=' c 'in' k" := (bind c (fun x => k))
  (at level 10, x name, c at level 200, k at level 200, only parsing).

(** Another request's single write: refused writes change nothing. *)
Definition otherWrite (coll : list Word.Doc) (d : Word.Doc) : list Word.Doc :=
  match Word.insertOne coll d with
  | Some coll' => coll'
  | None => coll
  end.

(** The world once the writes scheduled for the coming suspension point
    have reached the store. *)
Definition settle (w : World) : World :=
  match others w with
  | [] => w
  | now :: later =>
      {| words := fold_left otherWrite now (words w);
         users := users w;
         others := later |}
  end.

(** [await]: the handler is suspended, and the writes scheduled for this
    suspension point reach the store before it resumes. *)
Definition await : M unit := fun w => (Returned tt, settle w).

(** [await Word.find(filter).lean()], the filter being a predicate. *)
Definition Word_find (filter : Word.Doc -> bool) : M (list Word.Doc) :=
  let* _ := await in
  fun w => (Returned (List.filter filter (words w)), w).

(** [await User.find(filter).lean()] *)
Definition User_find (filter : User.Doc -> bool) : M (list User.Doc) :=
  let* _ := await in
  fun w => (Returned (List.filter filter (users w)), w).

(** [await Word.insertMany(docs, { ordered: true })]: the documents are
    created from the objects (each with a fresh [_id]) and written in order;
    a refused write throws the duplicate-key error. *)
Definition Word_insertMany (newId : nat -> string) (docs : list Word.New)
  : M (list Word.Doc) :=
  let* _ := await in
  fun w =>
    let created := imap (fun i n => Word.create (newId i) n) docs in
    match Word.insertOrdered (words w) created with
    | (coll, true) =>
        (Returned created,
         {| words := coll; users := users w; others := others w |})
    | (coll, false) =>
        (Thrown E11000,
         {| words := coll; users := users w; others := others w |})
    end.

(** [{ wordLower: { $in: lowers } }] *)
Definition wordLowerIn (lowers : list string) (d : Word.Doc) : bool :=
  bool_decide (Word.wordLower d ∈ lowers).

(** ** The conflict detector *)

(** The [Map] of occurrence counts: an association list in insertion order;
    [set] on a present key replaces its value in place. *)
Definition mapGet (m : list (string * nat)) (k : string) : option nat :=
  snd <$> List.find (fun e => String.eqb (fst e) k) m.

Fixpoint mapSet (m : list (string * nat)) (k : string) (v : nat)
  : list (string * nat) :=
  match m with
  | [] => [(k, v)]
  | e :: r => if String.eqb (fst e) k then (k, v) :: r else e :: mapSet r k v
  end.

(** [lowers.forEach((l) => counts.set(l, (counts.get(l) || 0) + 1))] *)
Definition countLowers (lowers : list string) : list (string * nat) :=
  fold_left (fun counts l => mapSet counts l (default 0 (mapGet counts l) + 1))
            lowers [].

(** [[...counts.entries()].filter(([, c]) => c > 1).map(([k]) => k)] *)
Definition inBatchOf (lowers : list string) : list string :=
  List.map fst (List.filter (fun e => Nat.ltb 1 (snd e)) (countLowers lowers)).

(** [[...new Set(found.map((d) => d.wordLower.toLowerCase()))]] *)
Definition existingLowerOf (found : list Word.Doc) : list string :=
  Js.arrayFromSet (List.map (fun d => Js.toLowerCase (Word.wordLower d)) found).

(** The text of the count-mismatch error. *)
Definition countError (n : nat) : string :=
  "Exactly 10 words required. Received " ++ pretty n ++ ".".

(** ** Requests and responses *)

(** What a request brings from outside the handler's text: the instant read
    by the [i]-th [new Date()] and the [_id] given to the [i]-th document
    created. *)
Record Env := { clock : nat -> Z; newId : nat -> string }.

(** The result object of [validateWords]; an absent property is [None]. *)
Module Result.
Record t := {
  ok : bool;
  status : option nat;
  error : option string;
  cleaned : option (list string);
  lowers : option (list string);
  conflicts : Conflicts
}.
End Result.

(** The JSON object of a response; an absent property is [None]. *)
Module Body.
Record t := {
  ok : option bool;
  status : option nat;
  message : option string;
  error : option string;
  cleaned : option (list string);
  lowers : option (list string);
  conflicts : option Conflicts;
  added : option nat
}.

(** [{ error }] *)
Definition ofError (e : string) : t :=
  {| ok := None; status := None; message := None; error := Some e;
     cleaned := None; lowers := None; conflicts := None; added := None |}.

(** [{ error, conflicts }] *)
Definition ofErrorConflicts (e : string) (c : Conflicts) : t :=
  {| ok := None; status := None; message := None; error := Some e;
     cleaned := None; lowers := None; conflicts := Some c; added := None |}.

(** [{ ok, message, conflicts }] *)
Definition ofVerdict (o : bool) (m : string) (c : Conflicts) : t :=
  {| ok := Some o; status := None; message := Some m; error := None;
     cleaned := None; lowers := None; conflicts := Some c; added := None |}.

(** [{ added }] *)
Definition ofAdded (n : nat) : t :=
  {| ok := None; status := None; message := None; error := None;
     cleaned := None; lowers := None; conflicts := None; added := Some n |}.

(** [res.json(result)]: the result object as it is. *)
Definition ofResult (r : Result.t) : t :=
  {| ok := Some (Result.ok r); status := Result.status r; message := None;
     error := Result.error r; cleaned := Result.cleaned r;
     lowers := Result.lowers r; conflicts := Some (Result.conflicts r);
     added := None |}.
End Body.

Record Response := { statusCode : nat; json : Body.t }.

(** The documents of a batch:
    [cleaned.map((w) => ({ userId: req.user.id, word: w,
                           wordLower: w.toLowerCase(), addedAt: new Date() }))] *)
Definition docsOf (env : Env) (user : string) (cleaned : list string)
  : list Word.New :=
  imap (fun i w => {| Word.new_userId := user; Word.new_word := w;
                      Word.new_wordLower := Js.toLowerCase w;
                      Word.new_addedAt := clock env i |}) cleaned.

(** ** Listing *)

(** [new Date(text)]: an instant in milliseconds, or [Invalid Date]. *)
Inductive JsDate := ValidDate (ms : Z) | InvalidDate.

(** What the listing takes from the platform rather than from the router's
    own text: the parsing of dates by the JavaScript runtime and the regular
    expressions of the store. *)
Class Platform := {
  (** [new Date(text)] *)
  Date_parse : string -> JsDate;
  (** [{ $regex: pattern, $options: "i" }]: the test the store applies, or
      nothing when the store rejects the pattern *)
  regexCompile : string -> option (string -> bool)
}.

(** [req.query]: each parameter absent or a text. *)
Record Query := {
  sort : option string;
  from : option string;
  to : option string;
  q : option string
}.

Inductive SortKey := addedAt | wordLower.

(** [{ addedAt: -1 }], [{ wordLower: 1 }], ... *)
Record SortSpec := { key : SortKey; direction : Z }.

(** [let sortSpec = { addedAt: -1 }; if (sort === "date-asc") ...] *)
Definition sortSpecOf (sort : string) : SortSpec :=
  let sortSpec := {| key := addedAt; direction := (-1)%Z |} in
  let sortSpec := if String.eqb sort "date-asc"
                  then {| key := addedAt; direction := 1%Z |} else sortSpec in
  let sortSpec := if String.eqb sort "alpha-asc"
                  then {| key := wordLower; direction := 1%Z |} else sortSpec in
  let sortSpec := if String.eqb sort "alpha-desc"
                  then {| key := wordLower; direction := (-1)%Z |} else sortSpec in
  sortSpec.

(** The filter objects the listing builds; an absent condition is [None]. *)
Record Filter := {
  f_userId : option string;
  f_gte : option JsDate;
  f_lte : option JsDate;
  f_regex : option string
}.

(** The order a sort specification asks of two documents. *)
Definition sortLeb (s : SortSpec) (a b : Word.Doc) : bool :=
  match key s with
  | addedAt =>
      if (0 <? direction s)%Z then (Word.addedAt a <=? Word.addedAt b)%Z
      else (Word.addedAt b <=? Word.addedAt a)%Z
  | wordLower =>
      if (0 <? direction s)%Z then String.leb (Word.wordLower a) (Word.wordLower b)
      else String.leb (Word.wordLower b) (Word.wordLower a)
  end.

Definition sortLe (s : SortSpec) (a b : Word.Doc) : Prop := sortLeb s a b.

Definition optAll {A} (o : option A) (p : A -> bool) : bool :=
  match o with Some a => p a | None => true end.

(** A document satisfies a filter whose dates are valid and whose pattern
    compiled to [re]. *)
Definition satisfies (f : Filter) (re : option (string -> bool))
           (d : Word.Doc) : bool :=
  optAll (f_userId f) (fun u => String.eqb (Word.userId d) u)
  && optAll (f_gte f) (fun t => match t with
                               | ValidDate ms => (ms <=? Word.addedAt d)%Z
                               | InvalidDate => false
                               end)
  && optAll (f_lte f) (fun t => match t with
                               | ValidDate ms => (Word.addedAt d <=? ms)%Z
                               | InvalidDate => false
                               end)
  && optAll re (fun test => test (Word.wordLower d)).

Definition invalidDate (o : option JsDate) : bool :=
  match o with Some InvalidDate => true | _ => false end.

(** The pattern of a filter, compiled: [None] when the store rejects it. *)
Definition compiled `{Platform} (f : Filter) : option (option (string -> bool)) :=
  match f_regex f with
  | None => Some None
  | Some p => Some <$> regexCompile p
  end.

(** [await Word.find(filter).sort(sortSpec).limit(n).lean()]: a filter with
    an invalid date or a rejected pattern makes the query throw; the sort
    keeps documents with equal keys in store order. *)
Definition Word_query `{Platform} (f : Filter) (s : SortSpec) (n : nat)
  : M (list Word.Doc) :=
  let* _ := await in
  if invalidDate (f_gte f) || invalidDate (f_lte f) then throw CastError
  else
    match compiled f with
    | None => throw {| code := Some 51091%Z |}
    | Some re =>
        fun w =>
          (Returned (take n (merge_sort (sortLe s)
                               (List.filter (satisfies f re) (words w)))),
           w)
    end.

(** An element of the two lists of the response. *)
Module Entry.
Record t := {
  _id : string;
  word : string;
  wordLower : string;
  userId : option string;
  addedAt : option string;
  ownerName : string
}.
End Entry.

Inductive ListJson :=
| Lists (mine all : list Entry.t)
| Failure (error : string).

Record ListResponse := { listStatus : nat; listJson : ListJson }.

Definition truthyText (s : string) : bool := negb (String.eqb s "").

(** The filters and the sort specification, built the same way by both
    copies of the router. *)
Section ListingQuery.
Context `{Platform}.
Variables (user : string) (query : Query).

Definition sortParam : string := default "date-desc" (sort query).
Definition qParam : string := default "" (q query).

Definition fromDate : option JsDate :=
  match from query with
  | Some f => if truthyText f then Some (Date_parse f) else None
  | None => None
  end.

Definition toDate : option JsDate :=
  match to query with
  | Some t => if truthyText t then Some (Date_parse (t ++ "T23:59:59")) else None
  | None => None
  end.

Definition qRegex : option string :=
  if truthyText qParam then Some (Js.toLowerCase qParam) else None.

Definition mineFilter : Filter :=
  {| f_userId := Some user; f_gte := fromDate; f_lte := toDate;
     f_regex := qRegex |}.

Definition globalFilter : Filter :=
  {| f_userId := None; f_gte := None; f_lte := None; f_regex := qRegex |}.

(** [[...new Set(allDocs.map((w) => String(w.userId)).filter(Boolean))]] *)
Definition userIdsOf (allDocs : list Word.Doc) : list string :=
  Js.arrayFromSet (List.filter truthyText (List.map Word.userId allDocs)).

(** [Object.fromEntries(owners.map((u) =>
      [String(u._id), u.name?.trim() || u.email]))] *)
Definition ownerLabel (u : User.Doc) : string :=
  match User.name u with
  | Some n => if truthyText (Js.trim n) then Js.trim n else User.email u
  | None => User.email u
  end.

Definition ownerMapOf (owners : list User.Doc) : gmap string string :=
  fold_left (fun m u => <[User._id u := ownerLabel u]> m) owners ∅.

(** [ownerMap[String(d.userId)] || "Unknown"] *)
Definition ownerNameOf (ownerMap : gmap string string) (d : Word.Doc)
  : string :=
  match ownerMap !! Word.userId d with
  | Some n => if truthyText n then n else "Unknown"
  | None => "Unknown"
  end.

(** [attachOwner]: the two copies build the same object from a document
    that has its [userId] and [addedAt]. *)
Definition attachOwner (ownerMap : gmap string string)
           (docs : list Word.Doc) : list Entry.t :=
  List.map (fun d =>
              {| Entry._id := Word._id d;
                 Entry.word := Word.word d;
                 Entry.wordLower := Word.wordLower d;
                 Entry.userId := Some (Word.userId d);
                 Entry.addedAt := Some (Js.toISOString (Word.addedAt d));
                 Entry.ownerName := ownerNameOf ownerMap d |}) docs.

Definition fetchFailed : ListResponse :=
  {| listStatus := 500; listJson := Failure "Fetch failed" |}.

End ListingQuery.

(** ** [src/routes/words.js] *)

Module Routes.

(** [validateWords(words)] *)
Definition validateWords (words : Js.Value) : M Result.t :=
  let nl := normalizeList words in
  if negb (length (cleaned nl) =? 10)%nat then
    ret {| Result.ok := false; Result.status := Some 400;
           Result.error := Some (countError (length (cleaned nl)));
           Result.cleaned := None; Result.lowers := None;
           Result.conflicts := conflictsObj [] [] |}
  else
    let inBatch := inBatchOf (lowers nl) in
    let* found := Word_find (wordLowerIn (lowers nl)) in
    let existingLower := existingLowerOf found in
    if (length existingLower =? 0)%nat && (length inBatch =? 0)%nat then
      ret {| Result.ok := true; Result.status := None; Result.error := None;
             Result.cleaned := Some (cleaned nl);
             Result.lowers := Some (lowers nl);
             Result.conflicts := conflictsObj [] [] |}
    else
      ret {| Result.ok := false; Result.status := None; Result.error := None;
             Result.cleaned := None; Result.lowers := None;
             Result.conflicts := conflictsObj existingLower inBatch |}.

(** [router.post("/validate", ...)] *)
Definition postValidate (words : Js.Value) : M Response :=
  tryCatch
    (let* result := validateWords words in
     if negb (Result.ok result) then
       ret {| statusCode := match Result.status result with
                            | Some 0 | None => 200
                            | Some n => n
                            end;
              json := Body.ofResult result |}
     else
       ret {| statusCode := 200;
              json := Body.ofVerdict true "No conflicts"
                        (Result.conflicts result) |})
    (fun err =>
       ret {| statusCode := 500; json := Body.ofError "Validation failed" |}).

(** [router.post("/", ...)] *)
Definition postWords (env : Env) (user : string) (words : Js.Value)
  : M Response :=
  tryCatch
    (let* result := validateWords words in
     if negb (Result.ok result) then
       ret {| statusCode := 409;
              json := Body.ofErrorConflicts
                        "Conflicts found. Fix duplicates before submitting."
                        (Result.conflicts result) |}
     else
       match Result.cleaned result with
       | None => throw TypeError
       | Some cleaned =>
           let docs := docsOf env user cleaned in
           let* inserted := Word_insertMany (newId env) docs in
           ret {| statusCode := 200;
                  json := Body.ofAdded (length inserted) |}
       end)
    (fun err =>
       if bool_decide (code err = Some 11000%Z) then
         ret {| statusCode := 409;
                json := Body.ofError "One or more words already exist" |}
       else
         ret {| statusCode := 500; json := Body.ofError "Insert failed" |}).

(** [router.get("/", ...)] *)
Definition getWords `{Platform} (user : string) (query : Query)
  : M ListResponse :=
  let sortSpec := sortSpecOf (sortParam query) in
  tryCatch
    (let* mineDocs := Word_query (mineFilter user query) sortSpec 2000 in
     let* allDocs := Word_query (globalFilter query) sortSpec 5000 in
     let userIds := userIdsOf allDocs in
     let* owners := User_find (fun u => bool_decide (User._id u ∈ userIds)) in
     let ownerMap := ownerMapOf owners in
     ret {| listStatus := 200;
            listJson := Lists (attachOwner ownerMap mineDocs)
                              (attachOwner ownerMap allDocs) |})
    (fun err => ret fetchFailed).

End Routes.

(** ** [backend/routes/words.js] *)

Module Backend.

(** [String(req.query?.action ?? "").toLowerCase()] *)
Definition actionOf (action : Js.Value) : string :=
  Js.toLowerCase
    (Js.toString match action with
                 | Js.Undefined | Js.Null => Js.Str ""
                 | v => v
                 end).

(** [router.post("/", ...)]: validation and submission share the route,
    told apart by the [action] query parameter. *)
Definition postWords (env : Env) (user : string)
           (action : Js.Value) (words : Js.Value) : M Response :=
  let action := actionOf action in
  let items := match words with Js.Arr _ => words | _ => Js.Arr [] end in
  let nl := normalizeList items in
  if negb (length (cleaned nl) =? 10)%nat then
    ret {| statusCode := 400;
           json := Body.ofErrorConflicts (countError (length (cleaned nl)))
                     (conflictsObj [] []) |}
  else
    let inBatch := inBatchOf (lowers nl) in
    let* fetched :=
      tryCatch
        (let* found := Word_find (wordLowerIn (lowers nl)) in
         ret (Some (existingLowerOf found)))
        (fun err => ret None) in
    match fetched with
    | None =>
        ret {| statusCode := 500; json := Body.ofError "DB fetch failed" |}
    | Some existingLower =>
        if String.eqb action "validate" then
          if (length existingLower =? 0)%nat && (length inBatch =? 0)%nat then
            ret {| statusCode := 200;
                   json := Body.ofVerdict true "No conflicts"
                             (conflictsObj [] []) |}
          else
            ret {| statusCode := 200;
                   json := Body.ofVerdict false "Conflicts found"
                             (conflictsObj existingLower inBatch) |}
        else if (0 <? length existingLower)%nat || (0 <? length inBatch)%nat then
          ret {| statusCode := 409;
                 json := Body.ofErrorConflicts
                           "Conflicts found. Fix duplicates before submitting."
                           (conflictsObj existingLower inBatch) |}
        else
          let docs := docsOf env user (cleaned nl) in
          tryCatch
            (let* inserted := Word_insertMany (newId env) docs in
             ret {| statusCode := 200;
                    json := Body.ofAdded (length inserted) |})
            (fun err =>
               if bool_decide (code err = Some 11000%Z) then
                 let* nowExisting := Word_find (wordLowerIn (lowers nl)) in
                 ret {| statusCode := 409;
                        json := Body.ofErrorConflicts
                                  "One or more words already exist"
                                  (conflictsObj
                                     (List.map Word.wordLower nowExisting)
                                     []) |}
               else
                 ret {| statusCode := 500;
                        json := Body.ofError "Insert failed" |})
    end.

(** The two uses of the route. *)
Definition validate (env : Env) (user : string) (words : Js.Value)
  : M Response :=
  postWords env user (Js.Str "validate") words.

Definition submit (env : Env) (user : string) (words : Js.Value)
  : M Response :=
  postWords env user Js.Undefined words.

(** [router.get("/", ...)]: the owners are
    fetched only when there is an owner to look for. *)
Definition getWords `{Platform} (user : string) (query : Query)
  : M ListResponse :=
  let sortSpec := sortSpecOf (sortParam query) in
  tryCatch
    (let* mineDocs := Word_query (mineFilter user query) sortSpec 2000 in
     let* allDocs := Word_query (globalFilter query) sortSpec 5000 in
     let userIds := userIdsOf allDocs in
     let* ownerMap :=
       if (0 <? length userIds)%nat then
         let* owners := User_find (fun u => bool_decide (User._id u ∈ userIds)) in
         ret (ownerMapOf owners)
       else ret ∅ in
     ret {| listStatus := 200;
            listJson := Lists (attachOwner ownerMap mineDocs)
                              (attachOwner ownerMap allDocs) |})
    (fun err => ret fetchFailed).

End Backend.

(** ** Before the routes: the index and the session
    ([ensureWordLowerIndexOnce], [getUserFromReq] and the middleware have
    the same text in both copies of the router.) *)

(** The module-level flag [indexEnsured], with what is observed of
    [ensureWordLowerIndexOnce]: the calls of [createIndex] issued and not
    yet settled, the calls issued in all, the warnings logged. *)
Record IndexState := {
  indexEnsured : bool;
  pending : nat;
  issued : nat;
  warned : nat
}.

(** [let indexEnsured = false] *)
Definition freshIndexState : IndexState :=
  {| indexEnsured := false; pending := 0; issued := 0; warned := 0 |}.

(** [ensureWordLowerIndexOnce()] up to its [await]: it returns at once when
    the flag is set, and calls [createIndex] otherwise. *)
Definition ensureBegin (s : IndexState) : IndexState :=
  if indexEnsured s then s
  else {| indexEnsured := indexEnsured s; pending := S (pending s);
          issued := S (issued s); warned := warned s |}.

(** [ensureWordLowerIndexOnce()] after its [await], one of the calls of
    [createIndex] being settled: fulfilled, the flag is set; rejected, a
    warning is logged and the error goes no further. *)
Definition ensureSettle (s : IndexState) (fulfilled : bool) : IndexState :=
  match pending s with
  | 0 => s
  | S rest =>
      if fulfilled then
        {| indexEnsured := true; pending := rest;
           issued := issued s; warned := warned s |}
      else
        {| indexEnsured := indexEnsured s; pending := rest;
           issued := issued s; warned := S (warned s) |}
  end.

(** What happens to the flag during the life of the process: a request
    reaches the middleware, or a call of [createIndex] is settled. *)
Inductive IndexEvent := Arrives | Settles (fulfilled : bool).

#[local] Instance IndexEvent_eq_dec : EqDecision IndexEvent.
Proof. solve_decision. Defined.

Definition indexStep (s : IndexState) (e : IndexEvent) : IndexState :=
  match e with
  | Arrives => ensureBegin s
  | Settles fulfilled => ensureSettle s fulfilled
  end.

Definition indexRun (s : IndexState) (events : list IndexEvent) : IndexState :=
  fold_left indexStep events s.

(** The payload of a verified token and the user the middleware attaches
    to the request; a property is any value, [undefined] when absent. *)
Module Token.
Record Payload := { sub : Js.Value; email : Js.Value; name : Js.Value }.
End Token.

Module Requester.
Record t := { id : Js.Value; email : Js.Value; name : Js.Value }.
End Requester.

(** What the router takes from its libraries to read a session. *)
Class Session := {
  (** [cookie.parse(header)] *)
  cookie_parse : string -> gmap string string;
  (** [jwt.verify(token, JWT_SECRET)], nothing when it throws *)
  jwt_verify : string -> option Token.Payload
}.

(** [getUserFromReq(req)], [header] being [req.headers.cookie]. *)
Definition getUserFromReq `{Session} (header : option string)
  : option Requester.t :=
  let cookies :=
    match header with
    | Some h => if truthyText h then cookie_parse h else ∅
    | None => ∅
    end in
  match cookies !! "token" with
  | None => None
  | Some token =>
      if negb (truthyText token) then None
      else
        match jwt_verify token with
        | Some payload =>
            Some {| Requester.id := Token.sub payload;
                    Requester.email := Token.email payload;
                    Requester.name := Token.name payload |}
        | None => None
        end
  end.

(** What the middleware makes of a request: it answers it itself, or
    hands it to the route, whose answer is the answer of the request. *)
Inductive Gated (R : Type) : Type :=
| Denied (answer : Response)
| Passed (answer : R).
Arguments Denied {R} answer.
Arguments Passed {R} answer.

(** [router.use(async (req, res, next) => ...)]: the index is looked
    after without being waited for, then the request goes on to the route
    ([next]) with the user of its token, or is answered 401. Reading the
    token takes no store operation. *)
Definition middleware `{Session} {R} (s : IndexState) (header : option string)
           (next : Requester.t -> M R) : IndexState * M (Gated R) :=
  (ensureBegin s,
   match getUserFromReq header with
   | None =>
       ret (Denied {| statusCode := 401; json := Body.ofError "Missing token" |})
   | Some user =>
       let* answer := next user in
       ret (Passed answer)
   end).

(** * The vocabulary of the properties *)

Local Open Scope nat_scope.

(** ** Texts *)

(** A text made of white space only. *)
Fixpoint blank (s : string) : bool :=
  match s with
  | EmptyString => true
  | String c r => Js.isWhiteSpace c && blank r
  end.

(** The first and the last code unit of a text. *)
Definition firstChar (s : string) : option ascii :=
  match s with EmptyString => None | String c _ => Some c end.

Fixpoint lastChar (s : string) : option ascii :=
  match s with
  | EmptyString => None
  | String c EmptyString => Some c
  | String _ r => lastChar r
  end.

(** A text with no white space at either end. *)
Definition tight (s : string) : Prop :=
  (∀ c, firstChar s = Some c → Js.isWhiteSpace c = false) ∧
  (∀ c, lastChar s = Some c → Js.isWhiteSpace c = false).

(** ** Counts *)

(** How many entries of [l] are [x]. *)
Definition occurrences (x : string) (l : list string) : nat :=
  length (List.filter (String.eqb x) l).

(** The count the map holds for a key, 0 for a key it does not have. *)
Definition countOf (m : list (string * nat)) (k : string) : nat :=
  default 0 (mapGet m k).

(** The loop over [lowers], from any map built so far. *)
Definition countStep (counts : list (string * nat)) (l : string)
  : list (string * nat) :=
  mapSet counts l (default 0 (mapGet counts l) + 1).

(** ** The store during a request *)

(** The keys of a collection. *)
Definition keysOf (coll : list Word.Doc) : list string :=
  List.map Word.wordLower coll.


(** The world with its word collection replaced. *)
Definition withWords (w : World) (coll : list Word.Doc) : World :=
  {| words := coll; users := users w; others := others w |}.

(** No write is scheduled at the coming suspension point. *)
Definition quietNext (w : World) : Prop := default [] (head (others w)) = [].

(** What the pre-check reads from a collection. *)
Definition existingIn (lowers : list string) (coll : list Word.Doc) : list string :=
  existingLowerOf (List.filter (wordLowerIn lowers) coll).

(** The pre-check finds nothing: no batch key in the collection, no key
    repeated in the batch. *)
Definition cleanCheck (lowers : list string) (coll : list Word.Doc) : bool :=
  (length (existingIn lowers coll) =? 0) && (length (inBatchOf lowers) =? 0).

(** The documents [insertMany] creates from the objects of a batch. *)
Definition createdOf (env : Env) (user : string) (cleaned : list string)
  : list Word.Doc :=
  imap (λ i n, Word.create (newId env i) n) (docsOf env user cleaned).

(** ** The answers of the handlers *)


(** The report a response carries, if any. *)
Definition reportOf (run : Outcome Response * World) : option Conflicts :=
  match run.1 with
  | Returned r => Body.conflicts (json r)
  | Thrown _ => None
  end.

(** The four ways a batch reaches the conflict detector. *)
Definition runsOf (env : Env) (user : string) (batch : Js.Value) (w : World)
  : list (Outcome Response * World) :=
  [Routes.postValidate batch w; Backend.validate env user batch w;
   Routes.postWords env user batch w; Backend.submit env user batch w].



(** ** Listings *)

(** The documents a query lists out of a collection. *)
Definition listed (s : SortSpec) (n : nat) (keep : Word.Doc → bool)
           (coll : list Word.Doc) : list Word.Doc :=
  take n (merge_sort (sortLe s) (List.filter keep coll)).

(** The dates of the request parse and the store accepts its pattern. *)
Definition validFilters `{Platform} (query : Query) : Prop :=
  invalidDate (fromDate query) = false
  ∧ invalidDate (toDate query) = false
  ∧ is_Some (compiled (globalFilter query)).

(** The date range of the request holds of a document. *)
Definition inRange `{Platform} (query : Query) (d : Word.Doc) : Prop :=
  (∀ ms, fromDate query = Some (ValidDate ms) → (ms ≤ Word.addedAt d)%Z)
  ∧ (∀ ms, toDate query = Some (ValidDate ms) → (Word.addedAt d ≤ ms)%Z).

(** The pattern of the request, when it has one, matches a document. *)
Definition matchesQ `{Platform} (query : Query) (d : Word.Doc) : Prop :=
  ∀ test, compiled (globalFilter query) = Some (Some test) →
          test (Word.wordLower d) = true.

(** The owners fetched for the documents of the global list. *)
Definition ownersOf (allDocs : list Word.Doc) (w : World) : list User.Doc :=
  List.filter (λ u, bool_decide (User._id u ∈ userIdsOf allDocs)) (users w).


(** What a listing answers, [run] being what the handler returned and the
    world it left: two lists of documents, each with its owner label, such
    that
    - the first holds records of the requester within the date range and
      matching the pattern, the second records of any owner matching the
      pattern (the date range plays no part in it);
    - a record the store held when the list was read and that passes the
      list's filter is in the list, unless the list is full and every
      record in it comes before that one in the order of the sort;
    - both are sorted by the one sort specification of the request, and
      hold at most 2000 and 5000 records;
    - a label in the owner map is the label of a user record with that
      identifier; and with one user record per identifier, the owner of a
      record of the second list has its label in the map. *)
Definition ListingOf `{Platform} (user : string) (query : Query) (w : World)
           (run : Outcome ListResponse * World) : Prop :=
  let spec := sortSpecOf (sortParam query) in
  ∃ mineDocs allDocs ownerMap,
    run.1 = Returned {| listStatus := 200;
                        listJson := Lists (attachOwner ownerMap mineDocs)
                                          (attachOwner ownerMap allDocs) |}
    ∧ (∀ d, d ∈ mineDocs →
            d ∈ words (settle w) ∧ Word.userId d = user
            ∧ inRange query d ∧ matchesQ query d)
    ∧ (∀ d, d ∈ words (settle w) → Word.userId d = user →
            inRange query d → matchesQ query d →
            d ∈ mineDocs
            ∨ (length mineDocs = 2000 ∧ ∀ e, e ∈ mineDocs → sortLe spec e d))
    ∧ (∀ d, d ∈ allDocs → d ∈ words (settle (settle w)) ∧ matchesQ query d)
    ∧ (∀ d, d ∈ words (settle (settle w)) → matchesQ query d →
            d ∈ allDocs
            ∨ (length allDocs = 5000 ∧ ∀ e, e ∈ allDocs → sortLe spec e d))
    ∧ StronglySorted (sortLe spec) mineDocs
    ∧ StronglySorted (sortLe spec) allDocs
    ∧ length mineDocs ≤ 2000
    ∧ length allDocs ≤ 5000
    ∧ (∀ k l, ownerMap !! k = Some l →
              ∃ u, u ∈ users w ∧ User._id u = k ∧ l = ownerLabel u)
    ∧ (NoDup (List.map User._id (users w)) →
       ∀ d u, d ∈ allDocs → Word.userId d ≠ "" → u ∈ users w →
              User._id u = Word.userId d →
              ownerMap !! Word.userId d = Some (ownerLabel u)).

(** ** The store across requests *)


(** The world after [k] suspensions in which the handler does nothing. *)
Definition suspensions (k : nat) (w : World) : World := Nat.iter k settle w.

(** No other request writes from now on. *)
Definition quiet (w : World) : Prop := Forall (λ ds, ds = []) (others w).


(** A batch of texts as a request body carries it. *)
Definition texts (l : list string) : Js.Value := Js.Arr (List.map Js.Str l).

(** The two listings of a request. *)
Definition listRuns `{Platform} (user : string) (query : Query) (w : World)
  : list (Outcome ListResponse * World) :=
  [Routes.getWords user query w; Backend.getWords user query w].

(** The validations and the submissions of a batch. *)
Definition validateRuns (env : Env) (user : string) (batch : Js.Value) (w : World)
  : list (Outcome Response * World) :=
  [Routes.postValidate batch w; Backend.validate env user batch w].

Definition submitRuns (env : Env) (user : string) (batch : Js.Value) (w : World)
  : list (Outcome Response * World) :=
  [Routes.postWords env user batch w; Backend.submit env user batch w].

(** The worlds the six handlers leave. *)
Definition worldsAfter `{Platform} (env : Env) (user : string)
           (batch : Js.Value) (query : Query) (w : World) : list World :=
  List.map snd (runsOf env user batch w) ++ List.map snd (listRuns user query w).

(** ** Listings, by sort and by query *)





(** A parameter given as the empty text, as absent. *)
Definition present (o : option string) : option string :=
  match o with
  | Some s => if truthyText s then Some s else None
  | None => None
  end.

(** A query with its empty parameters dropped and its pattern in lower
    case. *)
Definition plainQuery (query : Query) : Query :=
  {| sort := sort query; from := present (from query); to := present (to query);
     q := Js.toLowerCase <$> present (q query) |}.

(** The two lists of a response, when it carries them. *)
Definition listsOf (run : Outcome ListResponse * World)
  : option (list Entry.t * list Entry.t) :=
  match run.1 with
  | Returned {| listStatus := 200; listJson := Lists mine all |} => Some (mine, all)
  | _ => None
  end.

(** The requests that reach the middleware, among the events of the
    index. *)
Definition arrivals (events : list IndexEvent) : nat :=
  length (List.filter (λ e, match e with Arrives => true | _ => false end) events).

(** * Worked data *)

(** Scenario A: ten distinct words. *)
Definition scenarioA : Js.Value :=
  Js.Arr (List.map Js.Str
            ["Cat"; "Dog"; "Sun"; "Sky"; "Red"; "Blue"; "Fast"; "Slow"; "Up"; "Down"]).

(** Scenario B: nine entries are left once the blank ones are dropped. *)
Definition scenarioB : Js.Value :=
  Js.Arr (List.map Js.Str
            ["Cat"; "Dog"; " "; "Sun"; "Sky"; "Red"; ""; "Blue"; "Fast"; "Slow"; "Up"]).

(** Scenario C with the repeated word also stored: "cat" twice in the
    batch, and a record "cat" in the store. *)
Definition scenarioC : Js.Value :=
  Js.Arr (List.map Js.Str
            ["cat"; "Dog"; "Sun"; "Sky"; "Red"; "Blue"; "Fast"; "Slow"; "Up"; "Cat"]).

(** "Apple" three times, in three casings. *)
Definition scenarioApple : Js.Value :=
  Js.Arr (List.map Js.Str
            ["Apple"; "Dog"; "apple"; "Sky"; "Red"; "APPLE"; "Fast"; "Slow"; "Up"; "Down"]).

(** The clock and the identifiers of the worked requests. *)
Definition demoEnv : Env :=
  {| clock := λ i, (1700000000000 + Z.of_nat i)%Z;
     newId := λ i, "w" +:+ pretty i |}.

(** A record another user owns. *)
Definition moonDoc : Word.Doc :=
  {| Word._id := "m1"; Word.userId := "u2"; Word.word := "Moon";
     Word.wordLower := "moon"; Word.addedAt := 1690000000000%Z;
     Word.learned := false; Word.notes := "" |}.

(** A record another request writes. *)
Definition starDoc : Word.Doc :=
  {| Word._id := "s1"; Word.userId := "u2"; Word.word := "Star";
     Word.wordLower := "star"; Word.addedAt := 1700000000001%Z;
     Word.learned := false; Word.notes := "" |}.

(** A store with one record, and another request writing an unrelated
    word while the handler waits for its first read. *)
Definition calmWorld : World :=
  {| words := [moonDoc]; users := []; others := [[starDoc]] |}.

(** The record "RED" of another user. *)
Definition redDoc : Word.Doc :=
  {| Word._id := "r1"; Word.userId := "u2"; Word.word := "RED";
     Word.wordLower := "red"; Word.addedAt := 1700000000000%Z;
     Word.learned := false; Word.notes := "" |}.

(** The race: a store with one record; while the handler waits for its
    insert, another request writes the word "RED". *)
Definition raceWorld : World :=
  {| words := [moonDoc]; users := []; others := [[]; [redDoc]] |}.

(** The stored record "cat". *)
Definition catDoc : Word.Doc :=
  {| Word._id := "c1"; Word.userId := "u2"; Word.word := "Cat";
     Word.wordLower := "cat"; Word.addedAt := 1690000000000%Z;
     Word.learned := false; Word.notes := "" |}.

(** A store holding "cat", nothing else happening. *)
Definition catWorld : World :=
  {| words := [catDoc]; users := []; others := [] |}.

(** [p] is a prefix of [s]; [p] occurs in [s]. *)
Fixpoint startsWith (p s : string) : bool :=
  match p, s with
  | EmptyString, _ => true
  | String a p', String b s' => Ascii.eqb a b && startsWith p' s'
  | String _ _, EmptyString => false
  end.

Fixpoint contains (p s : string) : bool :=
  startsWith p s
  || match s with
     | EmptyString => false
     | String _ s' => contains p s'
     end.

(** A pattern made of small letters and digits only. *)
Fixpoint plainPattern (p : string) : bool :=
  match p with
  | EmptyString => true
  | String c r =>
      let n := N_of_ascii c in
      ((97 <=? n) && (n <=? 122) || (48 <=? n) && (n <=? 57))%N && plainPattern r
  end.

(** The platform on the texts of the worked requests: the two dates, read
    in a process whose time zone is UTC, and the patterns made of small
    letters and digits, which match as substrings. *)
Definition demoPlatform : Platform :=
  {| Date_parse := λ text,
       if String.eqb text "2024-01-10" then ValidDate 1704844800000
       else if String.eqb text "2024-01-31T23:59:59" then ValidDate 1706745599000
       else InvalidDate;
     regexCompile := λ p,
       if plainPattern p then Some (λ s, contains p (Js.toLowerCase s)) else None |}.

(** Two records of the requester, one from before the first date. *)
Definition oldDoc : Word.Doc :=
  {| Word._id := "a1"; Word.userId := "u1"; Word.word := "Old";
     Word.wordLower := "old"; Word.addedAt := 1700000000000%Z;
     Word.learned := false; Word.notes := "" |}.

Definition newDoc : Word.Doc :=
  {| Word._id := "a2"; Word.userId := "u1"; Word.word := "New";
     Word.wordLower := "new"; Word.addedAt := 1704931200000%Z;
     Word.learned := false; Word.notes := "" |}.

(** A store of three records and the user record of the requester. *)
Definition listWorld : World :=
  {| words := [oldDoc; newDoc; moonDoc];
     users := [{| User._id := "u1"; User.name := Some " Ann "; User.email := "ann@example.org" |}];
     others := [] |}.

(** A request with a date range and nothing else. *)
Definition fromJanuary : Query :=
  {| sort := None; from := Some "2024-01-10"; to := Some "2024-01-31"; q := None |}.

(** A request with a sort key the router does not know. *)
Definition bogusSort : Query :=
  {| sort := Some "newest"; from := None; to := None; q := Some "o" |}.

(** A store with one record, nothing else happening. *)
Definition stillWorld : World :=
  {| words := [moonDoc]; users := []; others := [] |}.


(** A request for the alphabetical order, without dates or pattern. *)
Definition alphaQuery : Query :=
  {| sort := Some "alpha-asc"; from := None; to := None; q := None |}.

(** A request whose first date is no date. *)
Definition badDate : Query :=
  {| sort := None; from := Some "yesterday"; to := None; q := None |}.

(** The entry of a document, with a given label. *)
Definition entryOf (d : Word.Doc) (label : string) : Entry.t :=
  {| Entry._id := Word._id d; Entry.word := Word.word d;
     Entry.wordLower := Word.wordLower d; Entry.userId := Some (Word.userId d);
     Entry.addedAt := Some (Js.toISOString (Word.addedAt d));
     Entry.ownerName := label |}.

(** * Properties *)

(** ** Strings *)

Lemma lowerChar_idem (c : ascii) : Js.lowerChar (Js.lowerChar c) = Js.lowerChar c.
Proof. destruct c as [[] [] [] [] [] [] [] []]; vm_compute; reflexivity. Qed.

Lemma toLowerCase_idem (s : string) :
  Js.toLowerCase (Js.toLowerCase s) = Js.toLowerCase s.
Proof.
  induction s as [|c s IH]; simpl; [reflexivity|].
  rewrite lowerChar_idem, IH. reflexivity.
Qed.

Lemma toLowerCase_length (s : string) :
  String.length (Js.toLowerCase s) = String.length s.
Proof. induction s; simpl; congruence. Qed.

Lemma append_cons (c : ascii) (p s : string) :
  (String c p ++ s)%string = String c (p ++ s)%string.
Proof. reflexivity. Qed.

Lemma trimStart_split (s : string) :
  ∃ p, s = (p ++ Js.trimStart s)%string ∧ blank p = true.
Proof.
  induction s as [|c s (p & Hs & Hp)]; simpl.
  - exists ""%string. split; reflexivity.
  - destruct (Js.isWhiteSpace c) eqn:Hc.
    + exists (String c p). rewrite append_cons. simpl. rewrite Hc, Hp.
      split; [congruence|reflexivity].
    + exists ""%string. split; reflexivity.
Qed.

Lemma trimStart_first (s : string) c :
  firstChar (Js.trimStart s) = Some c → Js.isWhiteSpace c = false.
Proof.
  induction s as [|a s IH]; simpl; [discriminate|].
  destruct (Js.isWhiteSpace a) eqn:Ha; [exact IH|].
  simpl. intros [= <-]. exact Ha.
Qed.

Lemma trimEnd_split (s : string) :
  ∃ p, s = (Js.trimEnd s ++ p)%string ∧ blank p = true.
Proof.
  induction s as [|c s (p & Hs & Hp)]; simpl.
  - exists ""%string. split; reflexivity.
  - destruct (Js.trimEnd s) as [|a r] eqn:Ht.
    + destruct (Js.isWhiteSpace c) eqn:Hc.
      * change (s = p) in Hs. exists (String c p). simpl. rewrite Hc, Hp.
        split; [change (String c s = String c p); f_equal; exact Hs|reflexivity].
      * exists p. rewrite append_cons. split; [f_equal; exact Hs|assumption].
    + exists p. split; [|assumption]. rewrite append_cons. f_equal. exact Hs.
Qed.

Lemma trimEnd_last (s : string) c :
  lastChar (Js.trimEnd s) = Some c → Js.isWhiteSpace c = false.
Proof.
  induction s as [|a s IH]; simpl; [discriminate|].
  destruct (Js.trimEnd s) as [|b r] eqn:Ht.
  - destruct (Js.isWhiteSpace a) eqn:Ha; simpl; [discriminate|].
    intros [= <-]. exact Ha.
  - exact IH.
Qed.

Lemma trimEnd_first (s : string) c :
  firstChar (Js.trimEnd s) = Some c → firstChar s = Some c.
Proof.
  destruct s as [|a s]; simpl; [discriminate|].
  destruct (Js.trimEnd s); [destruct (Js.isWhiteSpace a)|]; simpl; congruence.
Qed.

(** [trim] removes a blank prefix and a blank suffix and leaves a text with
    no white space at either end. *)
Lemma trim_spec (s : string) :
  (∃ p r, s = (p ++ Js.trim s ++ r)%string ∧ blank p = true ∧ blank r = true)
  ∧ tight (Js.trim s).
Proof.
  unfold Js.trim. split.
  - destruct (trimStart_split s) as (p & Hs & Hp).
    destruct (trimEnd_split (Js.trimStart s)) as (r & Hr & Hb).
    exists p, r. split; [|split; assumption].
    rewrite <- Hr. exact Hs.
  - split; intros c Hc.
    + apply trimEnd_first in Hc. eapply trimStart_first, Hc.
    + eapply trimEnd_last, Hc.
Qed.

(** ** Sets kept as arrays *)

Lemma setAdd_fold_elem (l acc : list string) (x : string) :
  x ∈ fold_left Js.setAdd l acc ↔ x ∈ acc ∨ x ∈ l.
Proof.
  revert acc. induction l as [|y l IH]; intros acc; simpl.
  - rewrite elem_of_nil. tauto.
  - rewrite IH. unfold Js.setAdd. case_bool_decide as Hy; set_solver.
Qed.

Lemma setAdd_fold_NoDup (l acc : list string) :
  NoDup acc → NoDup (fold_left Js.setAdd l acc).
Proof.
  revert acc. induction l as [|y l IH]; intros acc Hacc; simpl; [assumption|].
  apply IH. unfold Js.setAdd. case_bool_decide as Hy; [assumption|].
  apply NoDup_app. split; [assumption|]. split.
  - intros z Hz ->%list_elem_of_singleton. contradiction.
  - apply NoDup_singleton.
Qed.

Lemma elem_of_arrayFromSet (l : list string) (x : string) :
  x ∈ Js.arrayFromSet l ↔ x ∈ l.
Proof.
  unfold Js.arrayFromSet. rewrite setAdd_fold_elem, elem_of_nil. tauto.
Qed.

Lemma NoDup_arrayFromSet (l : list string) : NoDup (Js.arrayFromSet l).
Proof. apply setAdd_fold_NoDup, NoDup_nil_2. Qed.

Lemma arrayFromSet_nil (l : list string) : Js.arrayFromSet l = [] ↔ l = [].
Proof.
  split; [|intros ->; reflexivity].
  intros Hl. destruct l as [|x l]; [reflexivity|].
  assert (x ∈ Js.arrayFromSet (x :: l)) as Hx
    by (apply elem_of_arrayFromSet; left).
  rewrite Hl in Hx. by apply elem_of_nil in Hx.
Qed.


(** ** The occurrence counts *)

Lemma mapGet_mapSet (m : list (string * nat)) (k k' : string) (v : nat) :
  mapGet (mapSet m k v) k' = if String.eqb k k' then Some v else mapGet m k'.
Proof.
  unfold mapGet. induction m as [|[a c] m IH]; simpl.
  - destruct (String.eqb_spec k k'); reflexivity.
  - destruct (String.eqb_spec a k) as [->|Hak]; simpl.
    + destruct (String.eqb_spec k k'); reflexivity.
    + destruct (String.eqb_spec a k') as [->|Hak']; [|exact IH].
      destruct (String.eqb_spec k k'); [congruence|reflexivity].
Qed.

Lemma mapSet_keys (m : list (string * nat)) (k : string) (v : nat) :
  List.map fst (mapSet m k v)
  = if bool_decide (k ∈ List.map fst m) then List.map fst m
    else List.map fst m ++ [k].
Proof.
  induction m as [|[a c] m IH]; simpl.
  - reflexivity.
  - destruct (String.eqb_spec a k) as [->|Hak]; simpl.
    + rewrite bool_decide_eq_true_2; [reflexivity|left].
    + rewrite IH. case_bool_decide as Hk.
      * rewrite bool_decide_eq_true_2; [reflexivity|by right].
      * rewrite bool_decide_eq_false_2; [reflexivity|].
        intros [?|?]%elem_of_cons; congruence.
Qed.

Lemma mapSet_keys_NoDup (m : list (string * nat)) (k : string) (v : nat) :
  NoDup (List.map fst m) → NoDup (List.map fst (mapSet m k v)).
Proof.
  intros Hm. rewrite mapSet_keys. case_bool_decide as Hk; [assumption|].
  apply NoDup_app. split; [assumption|]. split; [|apply NoDup_singleton].
  intros z Hz ->%list_elem_of_singleton. contradiction.
Qed.

Lemma mapGet_entry (m : list (string * nat)) (k : string) (c : nat) :
  NoDup (List.map fst m) → (k, c) ∈ m ↔ mapGet m k = Some c.
Proof.
  unfold mapGet. induction m as [|[a n] m IH]; simpl; intros Hm.
  - split; [intros []%elem_of_nil|discriminate].
  - apply NoDup_cons in Hm as [Ha Hm].
    destruct (String.eqb_spec a k) as [->|Hak]; simpl.
    + split.
      * intros [[= ->]|Hin]%elem_of_cons; [reflexivity|].
        exfalso. apply Ha. apply list_elem_of_fmap. by exists (k, c).
      * intros [= ->]. left.
    + rewrite <- (IH Hm). rewrite elem_of_cons. split; [|tauto].
      intros [[= -> ->]|?]; [congruence|assumption].
Qed.

Lemma occurrences_cons (x y : string) (l : list string) :
  occurrences x (y :: l) = (if String.eqb x y then 1 else 0) + occurrences x l.
Proof. unfold occurrences. simpl. destruct (String.eqb x y); reflexivity. Qed.

Lemma occurrences_elem (x : string) (l : list string) :
  x ∈ l ↔ 1 ≤ occurrences x l.
Proof.
  induction l as [|y l IH].
  - split; [intros []%elem_of_nil|unfold occurrences; simpl; lia].
  - rewrite occurrences_cons, elem_of_cons, IH.
    destruct (String.eqb_spec x y); split; try lia; try tauto.
Qed.

Lemma occurrences_NoDup (l : list string) :
  NoDup l ↔ ∀ x, occurrences x l ≤ 1.
Proof.
  induction l as [|y l IH].
  - split; [intros _ x; unfold occurrences; simpl; lia|intros _; apply NoDup_nil_2].
  - rewrite NoDup_cons, IH. split.
    + intros [Hy Hl] x. rewrite occurrences_cons.
      destruct (String.eqb_spec x y) as [->|]; [|apply Hl].
      rewrite occurrences_elem in Hy. lia.
    + intros Hall. split.
      * rewrite occurrences_elem. specialize (Hall y).
        rewrite occurrences_cons, String.eqb_refl in Hall. lia.
      * intros x. specialize (Hall x). rewrite occurrences_cons in Hall. lia.
Qed.

Lemma countStep_fold_keys (l : list string) (acc : list (string * nat)) :
  NoDup (List.map fst acc) → NoDup (List.map fst (fold_left countStep l acc)).
Proof.
  revert acc. induction l as [|y l IH]; intros acc Hacc; simpl; [assumption|].
  apply IH, mapSet_keys_NoDup, Hacc.
Qed.

Lemma countStep_fold_count (l : list string) (acc : list (string * nat)) (k : string) :
  countOf (fold_left countStep l acc) k = countOf acc k + occurrences k l.
Proof.
  revert acc. induction l as [|y l IH]; intros acc; simpl.
  - unfold occurrences. simpl. lia.
  - rewrite IH, occurrences_cons. unfold countOf, countStep.
    rewrite mapGet_mapSet. rewrite (String.eqb_sym k y).
    destruct (String.eqb_spec y k) as [->|]; simpl; lia.
Qed.

Lemma countStep_fold_positive (l : list string) (acc : list (string * nat)) :
  Forall (λ e, 1 ≤ snd e) acc → Forall (λ e, 1 ≤ snd e) (fold_left countStep l acc).
Proof.
  revert acc. induction l as [|y l IH]; intros acc Hacc; simpl; [assumption|].
  apply IH. unfold countStep. generalize (default 0 (mapGet acc y)). intros n.
  induction Hacc as [|[a c] m Ha Hm IHm]; simpl.
  - constructor; [simpl; lia|constructor].
  - destruct (String.eqb a y); constructor; simpl; try lia; assumption.
Qed.

Lemma countLowers_keys (lowers : list string) :
  NoDup (List.map fst (countLowers lowers)).
Proof. apply countStep_fold_keys. simpl. apply NoDup_nil_2. Qed.

Lemma countLowers_count (lowers : list string) (k : string) :
  countOf (countLowers lowers) k = occurrences k lowers.
Proof. unfold countLowers. fold countStep. rewrite countStep_fold_count. reflexivity. Qed.

(** The in-batch list holds exactly the forms that occur more than once. *)
Lemma elem_of_inBatchOf (lowers : list string) (x : string) :
  x ∈ inBatchOf lowers ↔ 2 ≤ occurrences x lowers.
Proof.
  unfold inBatchOf. rewrite <- countLowers_count.
  pose proof (countLowers_keys lowers) as Hkeys.
  unfold countOf. split.
  - intros ([k c] & -> & Hin)%list_elem_of_fmap. simpl.
    apply list_elem_of_In, filter_In in Hin as [Hin Hc].
    apply list_elem_of_In, (mapGet_entry _ _ _ Hkeys) in Hin.
    rewrite Hin. simpl in *. apply Nat.ltb_lt in Hc. lia.
  - destruct (mapGet (countLowers lowers) x) as [c|] eqn:Hget; simpl; [|lia].
    intros Hc. apply list_elem_of_fmap. exists (x, c). split; [reflexivity|].
    apply list_elem_of_In, filter_In. split.
    + apply list_elem_of_In, (mapGet_entry _ _ _ Hkeys), Hget.
    + simpl. apply Nat.ltb_lt. lia.
Qed.



Lemma inBatchOf_nil (lowers : list string) :
  inBatchOf lowers = [] ↔ NoDup lowers.
Proof.
  rewrite occurrences_NoDup. split.
  - intros Hnil x. destruct (le_lt_dec (occurrences x lowers) 1) as [|Hx]; [assumption|].
    apply elem_of_inBatchOf in Hx. rewrite Hnil in Hx. by apply elem_of_nil in Hx.
  - intros Hall. destruct (inBatchOf lowers) as [|x r] eqn:Hb; [reflexivity|].
    assert (x ∈ inBatchOf lowers) as Hx by (rewrite Hb; left).
    apply elem_of_inBatchOf in Hx. specialize (Hall x). lia.
Qed.

(** ** The store *)

Lemma otherWrite_fold (ds coll : list Word.Doc) :
  ∃ extra, fold_left otherWrite ds coll = coll ++ extra ∧ extra ⊆ ds.
Proof.
  revert coll. induction ds as [|d ds IH]; intros coll; simpl.
  - exists []. split; [by rewrite app_nil_r|set_solver].
  - destruct (IH (otherWrite coll d)) as (extra & -> & Hsub).
    unfold otherWrite, Word.insertOne. destruct (Word.taken coll (Word.wordLower d)).
    + exists extra. split; [reflexivity|set_solver].
    + exists (d :: extra). split; [by rewrite <- app_assoc|set_solver].
Qed.

(** A suspension only adds documents, all of them written by others. *)
Lemma settle_words (w : World) :
  ∃ extra, words (settle w) = words w ++ extra
           ∧ ∀ d, d ∈ extra → ∃ ds, ds ∈ others w ∧ d ∈ ds.
Proof.
  unfold settle. destruct (others w) as [|now later]; simpl.
  - exists []. split; [by rewrite app_nil_r|]. by intros d ?%elem_of_nil.
  - destruct (otherWrite_fold now (words w)) as (extra & -> & Hsub).
    exists extra. split; [reflexivity|]. intros d Hd. exists now. split; [left|auto].
Qed.


Lemma settle_users (w : World) : users (settle w) = users w.
Proof. unfold settle. destruct (others w); reflexivity. Qed.

(** No write scheduled at the coming suspension point: the store stays. *)
Lemma settle_quiet (w : World) :
  default [] (head (others w)) = [] → words (settle w) = words w.
Proof. unfold settle. destruct (others w) as [|now later]; simpl; [done|]. by intros ->. Qed.



Lemma settle_words_prefix (w : World) : words w `prefix_of` words (settle w).
Proof. destruct (settle_words w) as (extra & -> & _). by exists extra. Qed.

(** An ordered insert writes a prefix of the documents; it is refused
    exactly when the next document's key is already in the collection. *)
Lemma insertOrdered_spec (docs coll : list Word.Doc) :
  ∃ k, k ≤ length docs
       ∧ (Word.insertOrdered coll docs).1 = coll ++ take k docs
       ∧ ((Word.insertOrdered coll docs).2 = true → k = length docs)
       ∧ ((Word.insertOrdered coll docs).2 = false →
          ∃ d, docs !! k = Some d
               ∧ Word.wordLower d ∈ List.map Word.wordLower (coll ++ take k docs)).
Proof.
  revert coll. induction docs as [|d docs IH]; intros coll; simpl.
  - exists 0. simpl. rewrite app_nil_r. split_and!; [lia|done|done|done].
  - unfold Word.insertOne, Word.taken. case_bool_decide as Hd; simpl.
    + exists 0. simpl. rewrite app_nil_r. split_and!; [lia|done|done|].
      intros _. by exists d.
    + destruct (IH (coll ++ [d])) as (k & Hk & Hfst & Htrue & Hfalse).
      exists (S k). simpl. rewrite Hfst, <- app_assoc. simpl.
      split_and!; [lia|done|by intros ->%Htrue|].
      intros (d' & Hd' & Hin)%Hfalse. exists d'. split; [assumption|].
      by rewrite <- app_assoc in Hin.
Qed.


(** ** The normaliser *)

Lemma normalizeList_lowers (items : Js.Value) :
  lowers (normalizeList items) = List.map Js.toLowerCase (cleaned (normalizeList items)).
Proof. reflexivity. Qed.

Lemma lowers_lower (items : Js.Value) :
  Forall (λ s, Js.toLowerCase s = s) (lowers (normalizeList items)).
Proof.
  rewrite normalizeList_lowers. apply Forall_forall.
  intros s (c & -> & _)%list_elem_of_fmap. apply toLowerCase_idem.
Qed.

Example normalizeList_demo :
  normalizeList (Js.Arr [Js.Str "  Cat "; Js.Null; Js.Str "   "; Js.Num 0;
                         Js.Num 42; Js.Bool true; Js.Str "DOG"])
  = {| cleaned := ["Cat"; "42"; "true"; "DOG"];
       lowers := ["cat"; "42"; "true"; "dog"] |}.
Proof. vm_compute. reflexivity. Qed.

(** The array guard of [backend/routes/words.js] changes nothing: a value
    that is not an array normalises to the empty batch either way. *)
Lemma normalizeList_items (words : Js.Value) :
  normalizeList match words with Js.Arr _ => words | _ => Js.Arr [] end
  = normalizeList words.
Proof. destruct words; reflexivity. Qed.




(** ** The count gate *)

Arguments normalizeList : simpl never.
Arguments conflictsObj : simpl never.
Arguments existingLowerOf : simpl never.
Arguments inBatchOf : simpl never.
Arguments settle : simpl never.

Section CountGate.
Variables (env : Env) (user : string) (words : Js.Value) (w : World).
Let n := length (cleaned (normalizeList words)).
Hypothesis mismatch : n ≠ 10.

Lemma validateWords_count_gate :
  Routes.validateWords words w
  = (Returned {| Result.ok := false; Result.status := Some 400;
                 Result.error := Some (countError n);
                 Result.cleaned := None; Result.lowers := None;
                 Result.conflicts := {| db := []; inBatch := [] |} |}, w).
Proof using mismatch.
  unfold Routes.validateWords. fold n.
  destruct (Nat.eqb_spec n 10) as [|_]; [contradiction|reflexivity].
Qed.

(** Validation through [/validate]: status 400, the count in the error
    text, an empty report, the world untouched. *)
Lemma postValidate_count_gate :
  Routes.postValidate words w
  = (Returned {| statusCode := 400;
                 json := {| Body.ok := Some false; Body.status := Some 400;
                            Body.message := None;
                            Body.error := Some (countError n);
                            Body.cleaned := None; Body.lowers := None;
                            Body.conflicts := Some {| db := []; inBatch := [] |};
                            Body.added := None |} |}, w).
Proof using mismatch.
  unfold Routes.postValidate, tryCatch, bind.
  rewrite validateWords_count_gate. reflexivity.
Qed.

(** The shared route of [backend/routes/words.js], whatever the action. *)
Lemma backend_count_gate (action : Js.Value) :
  Backend.postWords env user action words w
  = (Returned {| statusCode := 400;
                 json := Body.ofErrorConflicts (countError n)
                           {| db := []; inBatch := [] |} |}, w).
Proof using mismatch.
  unfold Backend.postWords. rewrite normalizeList_items. fold n.
  destruct (Nat.eqb_spec n 10) as [|_]; [contradiction|reflexivity].
Qed.

(** Submission through [src/routes/words.js]: the result of the gate is
    answered as a conflict, status 409, without the count. *)
Lemma postWords_count_gate :
  Routes.postWords env user words w
  = (Returned {| statusCode := 409;
                 json := Body.ofErrorConflicts
                           "Conflicts found. Fix duplicates before submitting."
                           {| db := []; inBatch := [] |} |}, w).
Proof using mismatch.
  unfold Routes.postWords, tryCatch, bind.
  rewrite validateWords_count_gate. reflexivity.
Qed.
End CountGate.

(** ** The conflict detector against a store *)

Lemma elem_of_existingIn (lowers : list string) (coll : list Word.Doc) (x : string) :
  Forall (λ s, Js.toLowerCase s = s) lowers →
  x ∈ existingIn lowers coll ↔ x ∈ lowers ∧ x ∈ keysOf coll.
Proof.
  intros Hlow. rewrite Forall_forall in Hlow.
  unfold existingIn, existingLowerOf, keysOf.
  rewrite elem_of_arrayFromSet, !list_elem_of_fmap. split.
  - intros (d & -> & Hd). apply list_elem_of_In, filter_In in Hd as [Hd Hin].
    unfold wordLowerIn in Hin. apply bool_decide_eq_true in Hin.
    rewrite (Hlow _ Hin). split; [assumption|]. exists d. by rewrite list_elem_of_In.
  - intros (Hx & d & -> & Hd). exists d. split; [by rewrite (Hlow _ Hx)|].
    apply list_elem_of_In, filter_In. split; [by apply list_elem_of_In|].
    by apply bool_decide_eq_true.
Qed.

Lemma NoDup_existingIn (lowers : list string) (coll : list Word.Doc) :
  NoDup (existingIn lowers coll).
Proof. apply NoDup_arrayFromSet. Qed.

Lemma list_nil_no_elem {A} (l : list A) : (∀ x, x ∉ l) → l = [].
Proof. destruct l as [|x l]; [done|]. intros H. destruct (H x). left. Qed.

Lemma existingIn_nil (lowers : list string) (coll : list Word.Doc) :
  Forall (λ s, Js.toLowerCase s = s) lowers →
  existingIn lowers coll = [] ↔ ∀ x, x ∈ lowers → x ∉ keysOf coll.
Proof.
  intros Hlow. split.
  - intros Hnil x Hx Hk.
    assert (x ∈ existingIn lowers coll) as Hin by by apply elem_of_existingIn.
    rewrite Hnil in Hin. by apply elem_of_nil in Hin.
  - intros Hfree. apply list_nil_no_elem. intros x Hx.
    apply elem_of_existingIn in Hx as [Hx Hk]; [|assumption]. by apply (Hfree x).
Qed.


Lemma conflictsObj_NoDup (d b : list string) :
  NoDup (db (conflictsObj d b)) ∧ NoDup (inBatch (conflictsObj d b)).
Proof. split; apply NoDup_arrayFromSet. Qed.



(** ** The documents of a batch *)

Lemma createdOf_lookup (env : Env) (user : string) (cleaned : list string) (i : nat) :
  createdOf env user cleaned !! i
  = (λ c, {| Word._id := newId env i; Word.userId := user; Word.word := c;
             Word.wordLower := Js.toLowerCase c; Word.addedAt := clock env i;
             Word.learned := false; Word.notes := "" |}) <$> cleaned !! i.
Proof.
  unfold createdOf, docsOf. rewrite !list_lookup_imap.
  by destruct (cleaned !! i).
Qed.

Lemma createdOf_length (env : Env) (user : string) (cleaned : list string) :
  length (createdOf env user cleaned) = length cleaned.
Proof. unfold createdOf, docsOf. by rewrite !length_imap. Qed.

Lemma createdOf_keys (env : Env) (user : string) (cleaned : list string) :
  keysOf (createdOf env user cleaned) = List.map Js.toLowerCase cleaned.
Proof.
  apply list_eq. intros i. unfold keysOf.
  change (List.map ?f ?l) with (f <$> l).
  rewrite !list_lookup_fmap, createdOf_lookup. by destruct (cleaned !! i).
Qed.

(** ** The handlers on a batch of ten *)

Lemma cleanCheck_spec (items : Js.Value) (coll : list Word.Doc) :
  cleanCheck (lowers (normalizeList items)) coll = true
  ↔ NoDup (lowers (normalizeList items))
    ∧ ∀ x, x ∈ lowers (normalizeList items) → x ∉ keysOf coll.
Proof.
  unfold cleanCheck. rewrite andb_true_iff, !Nat.eqb_eq, !length_zero_iff_nil.
  rewrite inBatchOf_nil, existingIn_nil by apply lowers_lower. tauto.
Qed.

Section Checked.
Variables (env : Env) (user : string) (batch : Js.Value) (w : World).
Let nl := normalizeList batch.
Let w1 := settle w.
Let existing := existingIn (lowers nl) (words w1).
Let repeated := inBatchOf (lowers nl).
Let clean := cleanCheck (lowers nl) (words w1).
Let w2 := settle w1.
Let created := createdOf env user (cleaned nl).
Let written := Word.insertOrdered (words w2) created.
Hypothesis ten : length (cleaned nl) = 10.

Lemma validateWords_checked :
  Routes.validateWords batch w
  = (Returned
       (if clean then
          {| Result.ok := true; Result.status := None; Result.error := None;
             Result.cleaned := Some (cleaned nl);
             Result.lowers := Some (lowers nl);
             Result.conflicts := {| db := []; inBatch := [] |} |}
        else
          {| Result.ok := false; Result.status := None; Result.error := None;
             Result.cleaned := None; Result.lowers := None;
             Result.conflicts := conflictsObj existing repeated |}), w1).
Proof using ten.
  unfold Routes.validateWords. fold nl. rewrite ten. cbn [negb Nat.eqb].
  unfold bind, Word_find, bind, await, ret. fold w1.
  fold (existingIn (lowers nl) (words w1)). fold existing repeated.
  change ((length existing =? 0) && (length repeated =? 0)) with clean.
  by destruct clean.
Qed.

Lemma postValidate_checked :
  Routes.postValidate batch w
  = (Returned
       {| statusCode := 200;
          json := if clean then
                    Body.ofVerdict true "No conflicts" {| db := []; inBatch := [] |}
                  else
                    {| Body.ok := Some false; Body.status := None;
                       Body.message := None; Body.error := None;
                       Body.cleaned := None; Body.lowers := None;
                       Body.conflicts := Some (conflictsObj existing repeated);
                       Body.added := None |} |}, w1).
Proof using ten.
  unfold Routes.postValidate, tryCatch, bind.
  rewrite validateWords_checked. by destruct clean.
Qed.

Lemma backend_validate_checked :
  Backend.validate env user batch w
  = (Returned
       {| statusCode := 200;
          json := if clean then
                    Body.ofVerdict true "No conflicts" {| db := []; inBatch := [] |}
                  else
                    Body.ofVerdict false "Conflicts found"
                      (conflictsObj existing repeated) |}, w1).
Proof using ten.
  unfold Backend.validate, Backend.postWords. rewrite normalizeList_items.
  fold nl. rewrite ten. cbn [negb Nat.eqb].
  unfold tryCatch, bind, Word_find, bind, await, ret. fold w1.
  fold (existingIn (lowers nl) (words w1)). fold existing repeated.
  change ((length existing =? 0) && (length repeated =? 0)) with clean.
  by destruct clean.
Qed.

(** Submission when the pre-check finds a conflict: both routers answer
    409 with the report, after the one read. *)
Lemma postWords_conflict :
  clean = false →
  Routes.postWords env user batch w
  = (Returned {| statusCode := 409;
                 json := Body.ofErrorConflicts
                           "Conflicts found. Fix duplicates before submitting."
                           (conflictsObj existing repeated) |}, w1).
Proof using ten.
  intros Hc. unfold Routes.postWords, tryCatch, bind.
  rewrite validateWords_checked, Hc. reflexivity.
Qed.

Lemma backend_submit_conflict :
  clean = false →
  Backend.submit env user batch w
  = (Returned {| statusCode := 409;
                 json := Body.ofErrorConflicts
                           "Conflicts found. Fix duplicates before submitting."
                           (conflictsObj existing repeated) |}, w1).
Proof using ten.
  intros Hc. unfold Backend.submit, Backend.postWords. rewrite normalizeList_items.
  fold nl. rewrite ten. cbn [negb Nat.eqb].
  unfold tryCatch, bind, Word_find, bind, await, ret. fold w1.
  fold (existingIn (lowers nl) (words w1)). fold existing repeated.
  revert Hc. unfold clean, cleanCheck. fold existing repeated.
  destruct (length existing), (length repeated); simpl; by try discriminate.
Qed.

(** Submission when the pre-check is clean: the ordered insert runs on the
    store as the second suspension leaves it. *)
Lemma postWords_clean :
  clean = true →
  Routes.postWords env user batch w
  = if written.2 then
      (Returned {| statusCode := 200; json := Body.ofAdded (length created) |},
       withWords w2 written.1)
    else
      (Returned {| statusCode := 409;
                   json := Body.ofError "One or more words already exist" |},
       withWords w2 written.1).
Proof using ten.
  intros Hc. unfold Routes.postWords, tryCatch, bind.
  rewrite validateWords_checked, Hc. cbn [negb Result.ok Result.cleaned].
  unfold Word_insertMany, bind, await. fold w1 w2.
  fold (createdOf env user (cleaned nl)). fold created. fold written.
  clearbody written. by destruct written as [coll []].
Qed.

Lemma backend_submit_clean :
  clean = true →
  Backend.submit env user batch w
  = if written.2 then
      (Returned {| statusCode := 200; json := Body.ofAdded (length created) |},
       withWords w2 written.1)
    else
      let w3 := settle (withWords w2 written.1) in
      (Returned {| statusCode := 409;
                   json := Body.ofErrorConflicts
                             "One or more words already exist"
                             (conflictsObj
                                (keysOf (List.filter (wordLowerIn (lowers nl))
                                                     (words w3)))
                                []) |},
       w3).
Proof using ten.
  intros Hc. unfold Backend.submit, Backend.postWords. rewrite normalizeList_items.
  fold nl. rewrite ten. cbn [negb Nat.eqb].
  unfold tryCatch at 1. unfold bind at 1. unfold bind at 1.
  unfold Word_find at 1. unfold bind at 1. unfold await at 1. fold w1.
  unfold ret at 1. 
  fold (existingIn (lowers nl) (words w1)). fold existing repeated.
  revert Hc. unfold clean, cleanCheck. fold existing repeated.
  destruct (length existing), (length repeated); try discriminate.
  intros _. change (Backend.actionOf Js.Undefined) with "".
  cbn [String.eqb Nat.ltb Nat.leb orb].
  unfold tryCatch, Word_insertMany, Word_find, bind, await, ret. fold w2.
  fold (createdOf env user (cleaned nl)). fold created. fold written.
  clearbody written. by destruct written as [coll []].
Qed.
End Checked.

(** ** A batch that conflicts with nothing *)






(** ** What a submission leaves in the store *)








(** C2. The count gate on submission in [src/routes/words.js]: a batch
    whose cleaned list has not exactly ten entries is answered at once and
    nothing is written, but the answer is the conflict answer, status 409
    with "Conflicts found" and an empty report; it is not the
    count-mismatch error and does not carry the count. *)
Theorem submit_count_mismatch_answered_as_conflict
        (env : Env) (user : string) (batch : Js.Value) (w : World) :
  let n := length (cleaned (normalizeList batch)) in
  n ≠ 10 →
  Routes.postWords env user batch w
  = (Returned {| statusCode := 409;
                 json := Body.ofErrorConflicts
                           "Conflicts found. Fix duplicates before submitting."
                           {| db := []; inBatch := [] |} |}, w)
  ∧ "Conflicts found. Fix duplicates before submitting." ≠ countError n.
Proof.
  intros n Hn. split; [by apply postWords_count_gate|].
  unfold countError. rewrite append_cons. discriminate.
Qed.

Lemma submit_count_mismatch_witness :
  length (cleaned (normalizeList scenarioB)) = 9
  ∧ Routes.postWords demoEnv "u1" scenarioB calmWorld
    = (Returned {| statusCode := 409;
                   json := Body.ofErrorConflicts
                             "Conflicts found. Fix duplicates before submitting."
                             {| db := []; inBatch := [] |} |}, calmWorld).
Proof.
  assert (length (cleaned (normalizeList scenarioB)) = 9) as Hnine
    by (vm_compute; reflexivity).
  split; [assumption|].
  apply (submit_count_mismatch_answered_as_conflict demoEnv "u1" scenarioB calmWorld).
  rewrite Hnine. lia.
Defined.

(** Scenario B on the three other paths: status 400 and the count. *)
Example scenarioB_elsewhere :
  (Routes.postValidate scenarioB calmWorld).1
  = Returned {| statusCode := 400;
                json := {| Body.ok := Some false; Body.status := Some 400;
                           Body.message := None;
                           Body.error := Some "Exactly 10 words required. Received 9.";
                           Body.cleaned := None; Body.lowers := None;
                           Body.conflicts := Some {| db := []; inBatch := [] |};
                           Body.added := None |} |}
  ∧ (Backend.validate demoEnv "u1" scenarioB calmWorld).1
    = Returned {| statusCode := 400;
                  json := Body.ofErrorConflicts
                            "Exactly 10 words required. Received 9."
                            {| db := []; inBatch := [] |} |}
  ∧ (Backend.submit demoEnv "u1" scenarioB calmWorld).1
    = Returned {| statusCode := 400;
                  json := Body.ofErrorConflicts
                            "Exactly 10 words required. Received 9."
                            {| db := []; inBatch := [] |} |}.
Proof. vm_compute. by split_and!. Qed.

(** ** The report after a refused write *)


(** C4. A write refused for a duplicate key after a clean pre-check, in
    [src/routes/words.js]: the answer is status 409 with the error text
    alone; the store is not read again and the body carries no conflict
    report. *)
Theorem refused_write_answered_without_report
        (env : Env) (user : string) (batch : Js.Value) (w : World) :
  let nl := normalizeList batch in
  length (cleaned nl) = 10 →
  cleanCheck (lowers nl) (words (settle w)) = true →
  (Word.insertOrdered (words (settle (settle w)))
     (createdOf env user (cleaned nl))).2 = false →
  (Routes.postWords env user batch w).1
  = Returned {| statusCode := 409;
                json := Body.ofError "One or more words already exist" |}
  ∧ Body.conflicts (Body.ofError "One or more words already exist") = None
  ∧ others (Routes.postWords env user batch w).2 = others (settle (settle w)).
Proof.
  cbv zeta. intros Hten Hclean Hrefused.
  rewrite postWords_clean by assumption. rewrite Hrefused. by split_and!.
Qed.

Lemma refused_write_witness :
  (Routes.postWords demoEnv "u1" scenarioA raceWorld).1
  = Returned {| statusCode := 409;
                json := Body.ofError "One or more words already exist" |}.
Proof.
  assert (length (cleaned (normalizeList scenarioA)) = 10) as Hten
    by (vm_compute; reflexivity).
  assert (cleanCheck (lowers (normalizeList scenarioA)) (words (settle raceWorld)) = true)
    as Hclean by (vm_compute; reflexivity).
  assert ((Word.insertOrdered (words (settle (settle raceWorld)))
             (createdOf demoEnv "u1" (cleaned (normalizeList scenarioA)))).2 = false)
    as Hrefused by (vm_compute; reflexivity).
  apply (refused_write_answered_without_report demoEnv "u1" scenarioA raceWorld
           Hten Hclean Hrefused).
Defined.


Example race_answers :
  (Routes.postWords demoEnv "u1" scenarioA raceWorld).1
  = Returned {| statusCode := 409;
                json := Body.ofError "One or more words already exist" |}
  ∧ (Backend.submit demoEnv "u1" scenarioA raceWorld).1
    = Returned {| statusCode := 409;
                  json := Body.ofErrorConflicts "One or more words already exist"
                            {| db := ["red"; "cat"; "dog"; "sun"; "sky"];
                               inBatch := [] |} |}.
Proof. vm_compute. by split. Qed.

(** ** The conflict report *)









(** ** The in-batch set *)




Example scenarioApple_report :
  reportOf (Routes.postValidate scenarioApple calmWorld)
  = Some {| db := []; inBatch := ["apple"] |}.
Proof. vm_compute. reflexivity. Qed.

(** ** Validation twice *)

(** C8. Validation called twice in succession with the same batch, no
    write reaching the store between the two calls: the second response is
    the first one, conflict report included, and the store is the same
    after both. Both routers. *)
Theorem validate_repeatable (env : Env) (user : string) (batch : Js.Value) (w : World) :
  let first := Routes.postValidate batch w in
  let again := Routes.postValidate batch first.2 in
  let firstB := Backend.validate env user batch w in
  let againB := Backend.validate env user batch firstB.2 in
  (quietNext first.2 →
   again.1 = first.1 ∧ reportOf again = reportOf first
   ∧ words again.2 = words first.2)
  ∧ (quietNext firstB.2 →
     againB.1 = firstB.1 ∧ reportOf againB = reportOf firstB
     ∧ words againB.2 = words firstB.2).
Proof.
  cbv zeta.
  destruct (decide (length (cleaned (normalizeList batch)) = 10)) as [Hten|Hn].
  - rewrite !postValidate_checked, !backend_validate_checked by assumption.
    cbn [fst snd]. unfold reportOf. cbn [fst].
    split; intros Hquiet%settle_quiet; rewrite Hquiet; by split_and!.
  - unfold Backend.validate.
    rewrite !postValidate_count_gate, !backend_count_gate by assumption.
    cbn [fst snd].
    rewrite ?postValidate_count_gate, ?backend_count_gate by assumption.
    by split_and!.
Qed.

Lemma validate_repeatable_witness :
  (Routes.postValidate scenarioC (Routes.postValidate scenarioC catWorld).2).1
  = (Routes.postValidate scenarioC catWorld).1.
Proof.
  assert (quietNext (Routes.postValidate scenarioC catWorld).2) as Hquiet
    by (vm_compute; reflexivity).
  apply (proj1 (validate_repeatable demoEnv "u1" scenarioC catWorld) Hquiet).
Defined.

(** A write between the two calls changes the second report. *)
Example validate_after_write :
  let w := {| words := []; users := []; others := [[]; [catDoc]] |} in
  reportOf (Routes.postValidate scenarioA w) = Some {| db := []; inBatch := [] |}
  ∧ reportOf (Routes.postValidate scenarioC w)
    = Some {| db := []; inBatch := ["cat"] |}
  ∧ reportOf (Routes.postValidate scenarioC (Routes.postValidate scenarioC w).2)
    = Some {| db := ["cat"]; inBatch := ["cat"] |}.
Proof. vm_compute. by split_and!. Qed.

(** ** Sorting and capping *)

#[local] Instance sortLe_total (s : SortSpec) : Total (sortLe s).
Proof.
  intros a b. unfold sortLe, sortLeb.
  destruct (key s), (0 <? direction s)%Z.
  - destruct (Z.leb_spec (Word.addedAt a) (Word.addedAt b));
      destruct (Z.leb_spec (Word.addedAt b) (Word.addedAt a)); simpl; auto; lia.
  - destruct (Z.leb_spec (Word.addedAt a) (Word.addedAt b));
      destruct (Z.leb_spec (Word.addedAt b) (Word.addedAt a)); simpl; auto; lia.
  - apply String.le_total.
  - destruct (String.le_total (Word.wordLower a) (Word.wordLower b)); auto.
Qed.

#[local] Instance sortLe_trans (s : SortSpec) : Transitive (sortLe s).
Proof.
  intros a b c. unfold sortLe, sortLeb.
  destruct (key s), (0 <? direction s)%Z.
  - rewrite !Is_true_true, !Z.leb_le. lia.
  - rewrite !Is_true_true, !Z.leb_le. lia.
  - apply (transitivity (R := String.le)).
  - intros Hab Hbc. by apply (transitivity (R := String.le) Hbc Hab).
Qed.

Lemma listed_sorted (s : SortSpec) (n : nat) (keep : Word.Doc → bool) coll :
  StronglySorted (sortLe s) (listed s n keep coll).
Proof.
  unfold listed.
  pose proof (StronglySorted_merge_sort (sortLe s) (List.filter keep coll)) as Hs.
  rewrite <- (take_drop n (merge_sort _ _)) in Hs.
  by apply StronglySorted_app_1_l in Hs.
Qed.

Lemma listed_cap (s : SortSpec) (n : nat) (keep : Word.Doc → bool) coll :
  length (listed s n keep coll) ≤ n.
Proof. unfold listed. rewrite length_take. lia. Qed.

Lemma listed_elem (s : SortSpec) (n : nat) (keep : Word.Doc → bool) coll d :
  d ∈ listed s n keep coll → d ∈ coll ∧ keep d = true.
Proof.
  unfold listed. intros Hd%subseteq_take.
  rewrite merge_sort_Permutation in Hd.
  by apply list_elem_of_In, filter_In in Hd as [?%list_elem_of_In ?].
Qed.

(** A kept document that is not listed was cut by the cap, and comes after
    every listed one. *)
Lemma listed_cut (s : SortSpec) (n : nat) (keep : Word.Doc → bool) coll d :
  d ∈ coll → keep d = true →
  d ∈ listed s n keep coll
  ∨ (length (listed s n keep coll) = n
     ∧ ∀ e, e ∈ listed s n keep coll → sortLe s e d).
Proof.
  intros Hd Hkeep. unfold listed.
  set (sorted := merge_sort (sortLe s) (List.filter keep coll)).
  assert (d ∈ sorted) as Hin.
  { unfold sorted. rewrite merge_sort_Permutation.
    apply list_elem_of_In, filter_In. by rewrite <- list_elem_of_In. }
  rewrite <- (take_drop n sorted), elem_of_app in Hin.
  destruct Hin as [Hin|Hin]; [by left|right]. split.
  - apply length_take_le. destruct (decide (n ≤ length sorted)); [assumption|].
    rewrite drop_ge in Hin by lia. by apply elem_of_nil in Hin.
  - intros e He.
    pose proof (StronglySorted_merge_sort (sortLe s) (List.filter keep coll)) as Hs.
    fold sorted in Hs. rewrite <- (take_drop n sorted) in Hs.
    by apply (StronglySorted_app_1_elem_of _ _ _ _ _ Hs).
Qed.

(** ** The owner labels *)

Lemma ownerMapOf_snoc (owners : list User.Doc) (u : User.Doc) :
  ownerMapOf (owners ++ [u]) = <[User._id u := ownerLabel u]> (ownerMapOf owners).
Proof. unfold ownerMapOf. by rewrite fold_left_app. Qed.

(** A label in the map is the label of one of the owners fetched. *)
Lemma ownerMapOf_Some (owners : list User.Doc) (k l : string) :
  ownerMapOf owners !! k = Some l →
  ∃ u, u ∈ owners ∧ User._id u = k ∧ l = ownerLabel u.
Proof.
  induction owners as [|u owners IH] using rev_ind.
  - unfold ownerMapOf. simpl. by rewrite lookup_empty.
  - rewrite ownerMapOf_snoc. destruct (decide (User._id u = k)) as [<-|Hne].
    + rewrite lookup_insert_eq. intros [= <-]. exists u.
      split_and!; [|done|done]. apply elem_of_app. right. left.
    + rewrite lookup_insert_ne by assumption.
      intros (u' & Hu' & Hk & Hl)%IH. exists u'.
      split_and!; [|done|done]. apply elem_of_app. by left.
Qed.

(** With one user record per identifier, every owner fetched has its own
    label in the map. *)
Lemma ownerMapOf_unique (owners : list User.Doc) (u : User.Doc) :
  NoDup (List.map User._id owners) → u ∈ owners →
  ownerMapOf owners !! User._id u = Some (ownerLabel u).
Proof.
  induction owners as [|v owners IH] using rev_ind; intros Hnd Hu.
  - by apply elem_of_nil in Hu.
  - rewrite ownerMapOf_snoc. rewrite map_app in Hnd.
    apply NoDup_app in Hnd as (Hnd & Hdisj & _).
    apply elem_of_app in Hu as [Hu|Hu].
    + destruct (decide (User._id v = User._id u)) as [Heq|Hne].
      * exfalso. apply (Hdisj (User._id u)); [by apply list_elem_of_fmap_2|].
        rewrite <- Heq. left.
      * rewrite lookup_insert_ne by assumption. by apply IH.
    + apply list_elem_of_singleton in Hu as ->. by rewrite lookup_insert_eq.
Qed.

(** ** The listing *)

Arguments listed : simpl never.
Arguments ownerMapOf : simpl never.
Arguments userIdsOf : simpl never.
Arguments attachOwner : simpl never.

Section Listing.
Context `{Platform}.
Variables (user : string) (query : Query).

Lemma compiled_mine : compiled (mineFilter user query) = compiled (globalFilter query).
Proof. reflexivity. Qed.

Lemma Word_query_ok (f : Filter) (s : SortSpec) (n : nat) (w : World) re :
  invalidDate (f_gte f) = false → invalidDate (f_lte f) = false →
  compiled f = Some re →
  Word_query f s n w
  = (Returned (listed s n (satisfies f re) (words (settle w))), settle w).
Proof.
  intros Hgte Hlte Hre. unfold Word_query, bind, await.
  by rewrite Hgte, Hlte, Hre.
Qed.

Lemma Word_query_throws (f : Filter) (s : SortSpec) (n : nat) (w : World) :
  invalidDate (f_gte f) = true ∨ invalidDate (f_lte f) = true ∨ compiled f = None →
  ∃ e, Word_query f s n w = (Thrown e, settle w).
Proof.
  unfold Word_query, bind, await, throw. intros [->|[->|Hre]].
  - by eexists.
  - rewrite orb_true_r. by eexists.
  - rewrite Hre. destruct (_ || _); by eexists.
Qed.

Lemma satisfies_mine (re : option (string → bool)) (d : Word.Doc) :
  invalidDate (fromDate query) = false → invalidDate (toDate query) = false →
  compiled (globalFilter query) = Some re →
  satisfies (mineFilter user query) re d = true
  ↔ Word.userId d = user ∧ inRange query d ∧ matchesQ query d.
Proof.
  intros Hfrom Hto Hre. unfold satisfies, inRange, matchesQ. rewrite Hre.
  cbn [mineFilter f_userId f_gte f_lte optAll].
  rewrite !andb_true_iff, String.eqb_eq.
  destruct (fromDate query) as [[from|]|]; try discriminate;
    destruct (toDate query) as [[to|]|]; try discriminate;
    destruct re as [test|]; cbn [optAll]; rewrite ?Z.leb_le;
    naive_solver.
Qed.

Lemma satisfies_global (re : option (string → bool)) (d : Word.Doc) :
  compiled (globalFilter query) = Some re →
  satisfies (globalFilter query) re d = true ↔ matchesQ query d.
Proof.
  intros Hre. unfold satisfies, matchesQ. rewrite Hre.
  cbn [globalFilter f_userId f_gte f_lte optAll].
  destruct re as [test|]; cbn [optAll andb]; naive_solver.
Qed.

Variable w : World.
Variable re : option (string → bool).
Hypothesis fromOk : invalidDate (fromDate query) = false.
Hypothesis toOk : invalidDate (toDate query) = false.
Hypothesis reOk : compiled (globalFilter query) = Some re.

Let spec := sortSpecOf (sortParam query).
Let mineDocs :=
  listed spec 2000 (satisfies (mineFilter user query) re) (words (settle w)).
Let allDocs :=
  listed spec 5000 (satisfies (globalFilter query) re) (words (settle (settle w))).

Lemma routes_getWords_ok :
  Routes.getWords user query w
  = (Returned {| listStatus := 200;
                 listJson := Lists (attachOwner (ownerMapOf (ownersOf allDocs w)) mineDocs)
                                   (attachOwner (ownerMapOf (ownersOf allDocs w)) allDocs) |},
     settle (settle (settle w))).
Proof using fromOk toOk reOk.
  unfold Routes.getWords, tryCatch. unfold bind at 1.
  rewrite (Word_query_ok _ _ _ _ re) by (try rewrite compiled_mine; assumption).
  unfold bind at 1.
  rewrite (Word_query_ok _ _ _ _ re) by (try assumption; reflexivity).
  unfold User_find, bind, await, ret. unfold ownersOf.
  by rewrite !settle_users.
Qed.

Lemma backend_getWords_ok :
  Backend.getWords user query w
  = if (0 <? length (userIdsOf allDocs))%nat then
      (Returned {| listStatus := 200;
                   listJson := Lists (attachOwner (ownerMapOf (ownersOf allDocs w)) mineDocs)
                                     (attachOwner (ownerMapOf (ownersOf allDocs w)) allDocs) |},
       settle (settle (settle w)))
    else
      (Returned {| listStatus := 200;
                   listJson := Lists (attachOwner ∅ mineDocs) (attachOwner ∅ allDocs) |},
       settle (settle w)).
Proof using fromOk toOk reOk.
  unfold Backend.getWords, tryCatch. unfold bind at 1.
  rewrite (Word_query_ok _ _ _ _ re) by (try rewrite compiled_mine; assumption).
  unfold bind at 1.
  rewrite (Word_query_ok _ _ _ _ re) by (try assumption; reflexivity).
  fold spec allDocs mineDocs.
  destruct (0 <? length (userIdsOf allDocs))%nat.
  - unfold User_find, bind, await, ret. unfold ownersOf.
    by rewrite !settle_users.
  - reflexivity.
Qed.
End Listing.

Lemma NoDup_map_filter {A B} (f : A → B) (p : A → bool) (l : list A) :
  NoDup (List.map f l) → NoDup (List.map f (List.filter p l)).
Proof.
  induction l as [|x l IH]; simpl; [done|].
  intros [Hx Hl]%NoDup_cons. destruct (p x); simpl; [|by apply IH].
  apply NoDup_cons. split; [|by apply IH].
  intros (y & Hy & Hin)%list_elem_of_fmap. apply Hx. rewrite Hy.
  apply list_elem_of_fmap_2.
  by apply list_elem_of_In, filter_In in Hin as [?%list_elem_of_In _].
Qed.

Lemma elem_of_userIdsOf (allDocs : list Word.Doc) (d : Word.Doc) :
  d ∈ allDocs → Word.userId d ≠ "" → Word.userId d ∈ userIdsOf allDocs.
Proof.
  intros Hd Hid. unfold userIdsOf.
  apply elem_of_arrayFromSet, list_elem_of_In, filter_In. split.
  - apply list_elem_of_In. by apply list_elem_of_fmap_2.
  - unfold truthyText. by destruct (String.eqb_spec (Word.userId d) "").
Qed.

Section ListingHolds.
Context `{Platform}.
Variables (user : string) (query : Query) (w : World).
Hypothesis valid : validFilters query.

Lemma ownersOf_Some (allDocs : list Word.Doc) (k l : string) :
  ownerMapOf (ownersOf allDocs w) !! k = Some l →
  ∃ u, u ∈ users w ∧ User._id u = k ∧ l = ownerLabel u.
Proof.
  intros (u & Hu & Hk & Hl)%ownerMapOf_Some. exists u. split_and!; [|done|done].
  by apply list_elem_of_In, filter_In in Hu as [?%list_elem_of_In _].
Qed.

Lemma ownersOf_unique (allDocs : list Word.Doc) (d : Word.Doc) (u : User.Doc) :
  NoDup (List.map User._id (users w)) →
  d ∈ allDocs → Word.userId d ≠ "" → u ∈ users w → User._id u = Word.userId d →
  ownerMapOf (ownersOf allDocs w) !! Word.userId d = Some (ownerLabel u).
Proof.
  intros Hnd Hd Hid Hu Heq. rewrite <- Heq. apply ownerMapOf_unique.
  - by apply NoDup_map_filter.
  - apply list_elem_of_In, filter_In. split; [by apply list_elem_of_In|].
    apply bool_decide_eq_true. rewrite Heq. by apply elem_of_userIdsOf.
Qed.

Lemma ListingOf_both :
  ListingOf user query w (Routes.getWords user query w)
  ∧ ListingOf user query w (Backend.getWords user query w).
Proof using valid.
  destruct valid as (Hfrom & Hto & [re Hre]).
  set (spec := sortSpecOf (sortParam query)).
  set (mineDocs := listed spec 2000 (satisfies (mineFilter user query) re)
                     (words (settle w))).
  set (allDocs := listed spec 5000 (satisfies (globalFilter query) re)
                    (words (settle (settle w)))).
  assert (∀ ownerMap run,
            run.1 = Returned {| listStatus := 200;
                                listJson := Lists (attachOwner ownerMap mineDocs)
                                                  (attachOwner ownerMap allDocs) |} →
            (∀ k l, ownerMap !! k = Some l →
                    ∃ u, u ∈ users w ∧ User._id u = k ∧ l = ownerLabel u) →
            (NoDup (List.map User._id (users w)) →
             ∀ d u, d ∈ allDocs → Word.userId d ≠ "" → u ∈ users w →
                    User._id u = Word.userId d →
                    ownerMap !! Word.userId d = Some (ownerLabel u)) →
            ListingOf user query w run) as Hlisting.
  { intros ownerMap run Hrun Hlabel Hunique.
    exists mineDocs, allDocs, ownerMap. fold spec. split_and!; try assumption.
    - intros d [Hd Hkeep]%listed_elem. split; [assumption|].
      by apply (satisfies_mine user query re d Hfrom Hto Hre).
    - intros d Hd Hu Hr Hq. apply listed_cut; [assumption|].
      by apply (satisfies_mine user query re d Hfrom Hto Hre).
    - intros d [Hd Hkeep]%listed_elem. split; [assumption|].
      by apply (satisfies_global query re d Hre).
    - intros d Hd Hq. apply listed_cut; [assumption|].
      by apply (satisfies_global query re d Hre).
    - apply listed_sorted.
    - apply listed_sorted.
    - apply listed_cap.
    - apply listed_cap. }
  split.
  - apply (Hlisting (ownerMapOf (ownersOf allDocs w))).
    + by rewrite (routes_getWords_ok user query w re).
    + apply ownersOf_Some.
    + intros Hnd d u. by apply ownersOf_unique.
  - rewrite (backend_getWords_ok user query w re) by assumption.
    fold spec allDocs mineDocs.
    destruct (0 <? length (userIdsOf allDocs))%nat eqn:Hids.
    + apply (Hlisting (ownerMapOf (ownersOf allDocs w))); [done| |].
      * apply ownersOf_Some.
      * intros Hnd d u. by apply ownersOf_unique.
    + apply (Hlisting ∅); [done| |].
      * intros k l. by rewrite lookup_empty.
      * intros _ d u Hd Hid _ _. exfalso.
        pose proof (elem_of_userIdsOf allDocs d Hd Hid) as Hin.
        apply Nat.ltb_ge in Hids. destruct (userIdsOf allDocs); [|simpl in Hids; lia].
        by apply elem_of_nil in Hin.
Qed.
End ListingHolds.

(** A listing whose dates do not parse, or whose pattern the store
    rejects, answers status 500. *)
Lemma getWords_invalid `{Platform} (user : string) (query : Query) (w : World) :
  ¬ validFilters query →
  (Routes.getWords user query w).1 = Returned fetchFailed
  ∧ (Backend.getWords user query w).1 = Returned fetchFailed.
Proof.
  intros Hinvalid.
  assert (invalidDate (fromDate query) = true ∨ invalidDate (toDate query) = true
          ∨ compiled (globalFilter query) = None) as Hbad.
  { unfold validFilters in Hinvalid.
    destruct (invalidDate (fromDate query)); [by left|].
    destruct (invalidDate (toDate query)); [by right; left|].
    destruct (compiled (globalFilter query)) eqn:Hre; [|by right; right].
    destruct Hinvalid. split_and!; [done|done|by eexists]. }
  destruct (Word_query_throws (mineFilter user query)
              (sortSpecOf (sortParam query)) 2000 w Hbad) as [e He].
  unfold Routes.getWords, Backend.getWords, tryCatch, bind. rewrite He. by split.
Qed.





(** ** The sort parameter *)





Example bogusSort_listing :
  (@Routes.getWords demoPlatform "u1" bogusSort listWorld).1
  = Returned {| listStatus := 200;
                listJson := Lists [entryOf oldDoc "Ann"]
                                  [entryOf oldDoc "Ann"; entryOf moonDoc "Unknown"] |}.
Proof. vm_compute. reflexivity. Qed.

(** * Further properties of the router *)

(** ** The store across requests *)





Lemma insertOrdered_prefix (docs coll : list Word.Doc) :
  coll `prefix_of` (Word.insertOrdered coll docs).1.
Proof.
  destruct (insertOrdered_spec docs coll) as (k & _ & -> & _). by eexists.
Qed.

(** The world a validation or a submission leaves: the world it found,
    after one suspension, or after the insert, which only the router that
    reads the store again follows with a third suspension. *)
Lemma runsOf_world (env : Env) (user : string) (batch : Js.Value) (w : World) run :
  let w2 := settle (settle w) in
  let inserted :=
    withWords w2
      (Word.insertOrdered (words w2)
         (createdOf env user (cleaned (normalizeList batch)))).1 in
  run ∈ runsOf env user batch w →
  run.2 = w ∨ run.2 = settle w ∨ run.2 = inserted ∨ run.2 = settle inserted.
Proof.
  cbv zeta. unfold runsOf. intros Hrun.
  destruct (decide (length (cleaned (normalizeList batch)) = 10)) as [Hten|Hn].
  - destruct (cleanCheck (lowers (normalizeList batch)) (words (settle w))) eqn:Hclean.
    + rewrite !elem_of_cons in Hrun.
      destruct Hrun as [->|[->|[->|[->|[]%elem_of_nil]]]].
      * rewrite postValidate_checked by assumption. by right; left.
      * rewrite backend_validate_checked by assumption. by right; left.
      * rewrite postWords_clean by assumption.
        destruct ((Word.insertOrdered _ _).2); by right; right; left.
      * rewrite backend_submit_clean by assumption.
        destruct ((Word.insertOrdered _ _).2); [by right; right; left|].
        by right; right; right.
    + rewrite !elem_of_cons in Hrun.
      destruct Hrun as [->|[->|[->|[->|[]%elem_of_nil]]]]; right; left.
      * by rewrite postValidate_checked by assumption.
      * by rewrite backend_validate_checked by assumption.
      * by rewrite postWords_conflict by assumption.
      * by rewrite backend_submit_conflict by assumption.
  - rewrite !elem_of_cons in Hrun.
    destruct Hrun as [->|[->|[->|[->|[]%elem_of_nil]]]]; left.
    + by rewrite postValidate_count_gate by assumption.
    + unfold Backend.validate. by rewrite backend_count_gate by assumption.
    + by rewrite postWords_count_gate by assumption.
    + unfold Backend.submit. by rewrite backend_count_gate by assumption.
Qed.

(** The world a listing leaves: the world it found, after at most three
    suspensions. *)
Lemma listRuns_world `{Platform} (user : string) (query : Query) (w : World) run :
  run ∈ listRuns user query w → ∃ k, k ≤ 3 ∧ run.2 = suspensions k w.
Proof.
  unfold listRuns. intros Hrun.
  destruct (invalidDate (fromDate query)) eqn:Hfrom;
    [|destruct (invalidDate (toDate query)) eqn:Hto;
      [|destruct (compiled (globalFilter query)) as [re|] eqn:Hre]].
  4: { destruct (Word_query_throws (mineFilter user query)
                   (sortSpecOf (sortParam query)) 2000 w) as [e He];
         [by right; right|].
       exists 1. split; [lia|].
       apply elem_of_cons in Hrun as [->|Hrun];
         [|apply list_elem_of_singleton in Hrun as ->];
         unfold Routes.getWords, Backend.getWords, tryCatch, bind; by rewrite He. }
  3: { apply elem_of_cons in Hrun as [->|Hrun];
         [|apply list_elem_of_singleton in Hrun as ->].
       - rewrite (routes_getWords_ok user query w re) by assumption.
         exists 3. by split.
       - rewrite (backend_getWords_ok user query w re) by assumption.
         destruct (0 <? length _); [exists 3|exists 2]; by split; [lia|]. }
  - destruct (Word_query_throws (mineFilter user query)
                (sortSpecOf (sortParam query)) 2000 w) as [e He]; [by left|].
    exists 1. split; [lia|].
    apply elem_of_cons in Hrun as [->|Hrun];
      [|apply list_elem_of_singleton in Hrun as ->];
      unfold Routes.getWords, Backend.getWords, tryCatch, bind; by rewrite He.
  - destruct (Word_query_throws (mineFilter user query)
                (sortSpecOf (sortParam query)) 2000 w) as [e He]; [by right; left|].
    exists 1. split; [lia|].
    apply elem_of_cons in Hrun as [->|Hrun];
      [|apply list_elem_of_singleton in Hrun as ->];
      unfold Routes.getWords, Backend.getWords, tryCatch, bind; by rewrite He.
Qed.


Lemma suspensions_prefix (k : nat) (w : World) :
  words w `prefix_of` words (suspensions k w).
Proof.
  induction k as [|k IH]; [done|]. simpl. etrans; [exact IH|apply settle_words_prefix].
Qed.

Lemma suspensions_users (k : nat) (w : World) : users (suspensions k w) = users w.
Proof. induction k as [|k IH]; [done|]. simpl. by rewrite settle_users. Qed.



(** X2. No handler removes or changes a record: the store a validation, a
    submission or a listing leaves begins with the store it found, record
    for record, and the user collection is the one it found. *)
Theorem store_append_only `{Platform} (env : Env) (user : string) (batch : Js.Value)
        (query : Query) (w w' : World) :
  w' ∈ worldsAfter env user batch query w →
  words w `prefix_of` words w' ∧ users w' = users w.
Proof.
  unfold worldsAfter. rewrite elem_of_app.
  intros [(run & -> & Hrun)%list_elem_of_fmap|(run & -> & Hrun)%list_elem_of_fmap].
  - assert (words w `prefix_of` words (settle (settle w))) as H2
      by (etrans; apply settle_words_prefix).
    apply runsOf_world in Hrun as [->|[->|[->| ->]]].
    + done.
    + split; [apply settle_words_prefix|apply settle_users].
    + cbn [withWords words users]. rewrite !settle_users. split; [|done].
      etrans; [exact H2|apply insertOrdered_prefix].
    + rewrite settle_users. cbn [withWords users]. rewrite !settle_users.
      split; [|done]. etrans; [|apply settle_words_prefix]. cbn [withWords words].
      etrans; [exact H2|apply insertOrdered_prefix].
  - apply listRuns_world in Hrun as (k & _ & ->).
    split; [apply suspensions_prefix|apply suspensions_users].
Qed.

Lemma store_append_only_witness :
  words calmWorld `prefix_of` words (Backend.submit demoEnv "u1" scenarioA calmWorld).2
  ∧ users (Backend.submit demoEnv "u1" scenarioA calmWorld).2 = users calmWorld.
Proof.
  apply (@store_append_only demoPlatform demoEnv "u1" scenarioA fromJanuary calmWorld).
  unfold worldsAfter. apply elem_of_app. left. apply list_elem_of_fmap.
  exists (Backend.submit demoEnv "u1" scenarioA calmWorld).
  split; [reflexivity|]. unfold runsOf. do 3 right. left.
Defined.


(** ** Handlers that only read *)

Lemma quiet_settle (w : World) :
  quiet w → words (settle w) = words w ∧ quiet (settle w).
Proof.
  unfold quiet, settle. destruct (others w) as [|now later] eqn:Hothers.
  - intros _. split; [done|]. by rewrite Hothers.
  - intros [-> Hlater]%Forall_cons. by split.
Qed.

Lemma quiet_suspensions (k : nat) (w : World) :
  quiet w → words (suspensions k w) = words w ∧ quiet (suspensions k w).
Proof.
  intros Hw. induction k as [|k [IHw IHq]]; [done|]. simpl.
  destruct (quiet_settle _ IHq) as [-> Hq]. by split.
Qed.

(** The shared route looks at its action only to tell validation from
    submission. *)
Lemma backend_action (env : Env) (user : string) (action batch : Js.Value) (w : World) :
  Backend.postWords env user action batch w
  = if String.eqb (Backend.actionOf action) "validate"
    then Backend.validate env user batch w
    else Backend.submit env user batch w.
Proof.
  unfold Backend.validate, Backend.submit, Backend.postWords. cbv zeta.
  change (Backend.actionOf (Js.Str "validate")) with "validate".
  change (Backend.actionOf Js.Undefined) with "".
  change (String.eqb "validate" "validate") with true.
  change (String.eqb "" "validate") with false.
  by destruct (String.eqb (Backend.actionOf action) "validate").
Qed.

Lemma validateRuns_world (env : Env) (user : string) (batch : Js.Value) (w : World) run :
  run ∈ validateRuns env user batch w → run.2 = w ∨ run.2 = settle w.
Proof.
  unfold validateRuns. intros Hrun.
  destruct (decide (length (cleaned (normalizeList batch)) = 10)) as [Hten|Hn].
  - right. apply elem_of_cons in Hrun as [->|Hrun];
      [|apply list_elem_of_singleton in Hrun as ->].
    + by rewrite postValidate_checked by assumption.
    + by rewrite backend_validate_checked by assumption.
  - left. apply elem_of_cons in Hrun as [->|Hrun];
      [|apply list_elem_of_singleton in Hrun as ->].
    + by rewrite postValidate_count_gate by assumption.
    + unfold Backend.validate. by rewrite backend_count_gate by assumption.
Qed.

(** X3. Validation and listing never write. The world each of them leaves
    is the world it found, after suspensions alone (at most one for a
    validation, at most three for a listing), and so is every request to
    the shared route whose action reads "validate" in any casing; when no
    other request writes, the store they leave is the store they found. *)
Theorem reads_never_write `{Platform} (env : Env) (user : string)
        (batch action : Js.Value) (query : Query) (w : World) :
  (∀ run, run ∈ validateRuns env user batch w →
          ∃ k, k ≤ 1 ∧ run.2 = suspensions k w)
  ∧ (Backend.actionOf action = "validate" →
     ∃ k, k ≤ 1 ∧ (Backend.postWords env user action batch w).2 = suspensions k w)
  ∧ (∀ run, run ∈ listRuns user query w → ∃ k, k ≤ 3 ∧ run.2 = suspensions k w)
  ∧ (quiet w →
     (∀ run, run ∈ validateRuns env user batch w → words run.2 = words w)
     ∧ (∀ run, run ∈ listRuns user query w → words run.2 = words w)).
Proof.
  assert (∀ run, run ∈ validateRuns env user batch w →
                 ∃ k, k ≤ 1 ∧ run.2 = suspensions k w) as Hvalidate.
  { intros run [->| ->]%validateRuns_world; [exists 0|exists 1];
      (split; [lia|reflexivity]). }
  split_and!.
  - exact Hvalidate.
  - intros Haction. rewrite backend_action, Haction.
    change (String.eqb "validate" "validate") with true. cbv iota.
    apply Hvalidate. unfold validateRuns. set_solver.
  - intros run. apply listRuns_world.
  - intros Hquiet. split.
    + intros run (k & _ & ->)%Hvalidate. by apply quiet_suspensions.
    + intros run (k & _ & ->)%listRuns_world. by apply quiet_suspensions.
Qed.

(** ** The answers of a submission and of a validation *)

Lemma submit_added (env : Env) (user : string) (batch : Js.Value)
      (w : World) (run : Outcome Response * World) (r : Response) (n : nat) :
  run ∈ submitRuns env user batch w →
  run.1 = Returned r →
  Body.added (json r) = Some n →
  r = {| statusCode := 200; json := Body.ofAdded 10 |}
  ∧ length (cleaned (normalizeList batch)) = 10
  ∧ cleanCheck (lowers (normalizeList batch)) (words (settle w)) = true
  ∧ words run.2
    = words (settle (settle w)) ++ createdOf env user (cleaned (normalizeList batch)).
Proof.
  unfold submitRuns. intros Hrun.
  destruct (decide (length (cleaned (normalizeList batch)) = 10)) as [Hten|Hn].
  - pose proof (createdOf_length env user (cleaned (normalizeList batch))) as Hlen.
    rewrite Hten in Hlen.
    destruct (cleanCheck (lowers (normalizeList batch)) (words (settle w))) eqn:Hclean.
    + destruct (insertOrdered_spec (createdOf env user (cleaned (normalizeList batch)))
                  (words (settle (settle w)))) as (k & _ & Hfst & Hk & _).
      apply elem_of_cons in Hrun as [->|Hrun];
        [|apply list_elem_of_singleton in Hrun as ->].
      * rewrite postWords_clean by assumption.
        destruct ((Word.insertOrdered _ _).2) eqn:Hwritten; cbn [fst snd].
        -- intros [= <-] _. split_and!; try done.
           ++ do 2 f_equal. exact Hlen.
           ++ cbn [withWords words]. by rewrite Hfst, (Hk eq_refl), firstn_all.
        -- by intros [= <-].
      * rewrite backend_submit_clean by assumption.
        destruct ((Word.insertOrdered _ _).2) eqn:Hwritten; cbv zeta; cbn [fst snd].
        -- intros [= <-] _. split_and!; try done.
           ++ do 2 f_equal. exact Hlen.
           ++ cbn [withWords words]. by rewrite Hfst, (Hk eq_refl), firstn_all.
        -- by intros [= <-].
    + apply elem_of_cons in Hrun as [->|Hrun];
        [|apply list_elem_of_singleton in Hrun as ->].
      * rewrite postWords_conflict by assumption. by intros [= <-].
      * rewrite backend_submit_conflict by assumption. by intros [= <-].
  - apply elem_of_cons in Hrun as [->|Hrun];
      [|apply list_elem_of_singleton in Hrun as ->].
    + rewrite postWords_count_gate by assumption. by intros [= <-].
    + unfold Backend.submit. rewrite backend_count_gate by assumption.
      by intros [= <-].
Qed.

(** X4. A submission answers [{added: n}] only with [n] = 10, status 200,
    for a batch of exactly ten cleaned entries whose pre-check was clean,
    and then the ten documents are the end of the store it leaves. Both
    routers. *)
Theorem added_means_ten_stored (env : Env) (user : string) (batch : Js.Value)
        (w : World) (run : Outcome Response * World) (r : Response) (n : nat) :
  run ∈ submitRuns env user batch w →
  run.1 = Returned r →
  Body.added (json r) = Some n →
  r = {| statusCode := 200; json := Body.ofAdded 10 |}
  ∧ length (cleaned (normalizeList batch)) = 10
  ∧ cleanCheck (lowers (normalizeList batch)) (words (settle w)) = true
  ∧ words run.2
    = words (settle (settle w)) ++ createdOf env user (cleaned (normalizeList batch)).
Proof.
  intros Hrun Hanswer Hadded. by eapply submit_added.
Qed.

Lemma added_means_ten_stored_witness :
  length (cleaned (normalizeList scenarioA)) = 10
  ∧ words (Routes.postWords demoEnv "u1" scenarioA calmWorld).2
    = words (settle (settle calmWorld))
      ++ createdOf demoEnv "u1" (cleaned (normalizeList scenarioA)).
Proof.
  assert (Routes.postWords demoEnv "u1" scenarioA calmWorld
          ∈ submitRuns demoEnv "u1" scenarioA calmWorld) as Hrun by left.
  assert ((Routes.postWords demoEnv "u1" scenarioA calmWorld).1
          = Returned {| statusCode := 200; json := Body.ofAdded 10 |}) as Hanswer
    by (vm_compute; reflexivity).
  destruct (added_means_ten_stored demoEnv "u1" scenarioA calmWorld _ _ 10
              Hrun Hanswer eq_refl) as (_ & Hten & _ & Hwords).
  split; assumption.
Defined.



(** ** Requests one after the other *)



Lemma insertOrdered_accepted (docs coll : list Word.Doc) :
  (Word.insertOrdered coll docs).2 = true →
  Word.insertOrdered coll docs = (coll ++ docs, true)
  ∧ ∀ d, d ∈ docs → Word.wordLower d ∉ keysOf coll.
Proof.
  revert coll. induction docs as [|d docs IH]; intros coll; simpl.
  - intros _. split; [by rewrite app_nil_r|]. by intros d ?%elem_of_nil.
  - unfold Word.insertOne, Word.taken. case_bool_decide as Hd; simpl; [done|].
    intros [Heq Hfresh]%IH. split; [by rewrite Heq, <- app_assoc|].
    intros d' [->|Hd']%elem_of_cons; [assumption|].
    intros Hin. apply (Hfresh d' Hd'). unfold keysOf. rewrite map_app, elem_of_app.
    by left.
Qed.






Section ValidateThenSubmit.
Variables (env : Env) (user : string) (batch : Js.Value) (w1 : World).
Hypothesis ten : length (cleaned (normalizeList batch)) = 10.
Hypothesis calm : quiet w1.


End ValidateThenSubmit.



Lemma submit_accepted (env : Env) (user : string) (batch : Js.Value) (w : World)
      (run : Outcome Response * World) :
  let created := createdOf env user (cleaned (normalizeList batch)) in
  run ∈ submitRuns env user batch w →
  run.1 = Returned {| statusCode := 200; json := Body.ofAdded 10 |} →
  length (cleaned (normalizeList batch)) = 10
  ∧ NoDup (lowers (normalizeList batch))
  ∧ (∀ x, x ∈ lowers (normalizeList batch) → x ∉ keysOf (words (settle (settle w))))
  ∧ words run.2 = words (settle (settle w)) ++ created.
Proof.
  cbv zeta. intros Hrun Hanswer.
  destruct (submit_added env user batch w run _ 10 Hrun Hanswer eq_refl)
    as (_ & Hten & [Hnd _]%cleanCheck_spec & Hwords).
  split_and!; try assumption.
  assert ((Word.insertOrdered (words (settle (settle w)))
             (createdOf env user (cleaned (normalizeList batch)))).2 = true) as Hacc.
  { destruct ((Word.insertOrdered _ _).2) eqn:Hwritten; [done|]. exfalso.
    assert (cleanCheck (lowers (normalizeList batch)) (words (settle w)) = true)
      as Hclean by by destruct (submit_added env user batch w run _ 10 Hrun Hanswer eq_refl)
                        as (_ & _ & ? & _).
    unfold submitRuns in Hrun.
    apply elem_of_cons in Hrun as [->|Hrun]; [|apply list_elem_of_singleton in Hrun as ->].
    - rewrite postWords_clean, Hwritten in Hanswer by assumption. discriminate.
    - rewrite backend_submit_clean, Hwritten in Hanswer by assumption. discriminate. }
  apply insertOrdered_accepted in Hacc as [_ Hfresh].
  intros x Hx. rewrite normalizeList_lowers, <- (createdOf_keys env user) in Hx.
  apply list_elem_of_fmap in Hx as (d & -> & Hd). by apply Hfresh.
Qed.



(** ** The two routers side by side *)



(** X9. A body whose [words] is missing or is not an array counts as the
    empty batch: validation, and submission through the shared route,
    answer 400 "Exactly 10 words required. Received 0." and leave the world
    as it is. *)
Theorem malformed_batch_counts_zero (env : Env) (user : string)
        (action batch : Js.Value) (w : World) :
  (∀ l, batch ≠ Js.Arr l) →
  cleaned (normalizeList batch) = []
  ∧ (Routes.postValidate batch w).1
    = Returned {| statusCode := 400;
                  json := {| Body.ok := Some false; Body.status := Some 400;
                             Body.message := None;
                             Body.error := Some "Exactly 10 words required. Received 0.";
                             Body.cleaned := None; Body.lowers := None;
                             Body.conflicts := Some {| db := []; inBatch := [] |};
                             Body.added := None |} |}
  ∧ (Backend.postWords env user action batch w).1
    = Returned {| statusCode := 400;
                  json := Body.ofErrorConflicts
                            "Exactly 10 words required. Received 0."
                            {| db := []; inBatch := [] |} |}
  ∧ (Routes.postValidate batch w).2 = w
  ∧ (Backend.postWords env user action batch w).2 = w.
Proof.
  intros Hbatch.
  assert (cleaned (normalizeList batch) = []) as Hcleaned.
  { destruct batch; try reflexivity. by destruct (Hbatch items). }
  assert (length (cleaned (normalizeList batch)) ≠ 10) as Hn by by rewrite Hcleaned.
  rewrite postValidate_count_gate, (backend_count_gate env user batch w Hn action)
    by assumption.
  rewrite Hcleaned. by split_and!.
Qed.

Lemma malformed_batch_counts_zero_witness :
  cleaned (normalizeList (Js.Str "cat,dog")) = []
  ∧ (Backend.postWords demoEnv "u1" Js.Undefined (Js.Str "cat,dog") calmWorld).2
    = calmWorld.
Proof.
  assert (∀ l, Js.Str "cat,dog" ≠ Js.Arr l) as Hbatch by (intros l; discriminate).
  destruct (malformed_batch_counts_zero demoEnv "u1" Js.Undefined (Js.Str "cat,dog")
              calmWorld Hbatch) as (Hnone & _ & _ & _ & Hworld).
  split; assumption.
Defined.

(** ** The normaliser on its own output *)

Lemma isWhiteSpace_lowerChar (c : ascii) :
  Js.isWhiteSpace (Js.lowerChar c) = Js.isWhiteSpace c.
Proof. destruct c as [[] [] [] [] [] [] [] []]; vm_compute; reflexivity. Qed.

Lemma trimStart_lower (s : string) :
  Js.toLowerCase (Js.trimStart s) = Js.trimStart (Js.toLowerCase s).
Proof.
  induction s as [|c s IH]; [reflexivity|].
  cbn [Js.trimStart Js.toLowerCase]. rewrite isWhiteSpace_lowerChar.
  by destruct (Js.isWhiteSpace c).
Qed.

Lemma trimEnd_lower (s : string) :
  Js.toLowerCase (Js.trimEnd s) = Js.trimEnd (Js.toLowerCase s).
Proof.
  induction s as [|c s IH]; [reflexivity|].
  cbn [Js.trimEnd Js.toLowerCase]. rewrite <- IH, isWhiteSpace_lowerChar.
  destruct (Js.trimEnd s); [by destruct (Js.isWhiteSpace c)|reflexivity].
Qed.

Lemma trim_lower (s : string) :
  Js.toLowerCase (Js.trim s) = Js.trim (Js.toLowerCase s).
Proof. unfold Js.trim. by rewrite trimEnd_lower, trimStart_lower. Qed.

Lemma nonEmpty_lower (s : string) : nonEmpty (Js.toLowerCase s) = nonEmpty s.
Proof. by destruct s. Qed.

Lemma trimStart_tight (s : string) :
  (∀ c, firstChar s = Some c → Js.isWhiteSpace c = false) → Js.trimStart s = s.
Proof.
  destruct s as [|c s]; [reflexivity|]. intros Hc.
  cbn [Js.trimStart]. by rewrite (Hc c eq_refl).
Qed.

Lemma trimEnd_tight (s : string) :
  (∀ c, lastChar s = Some c → Js.isWhiteSpace c = false) → Js.trimEnd s = s.
Proof.
  induction s as [|c s IH]; [reflexivity|]. intros Hc.
  cbn [Js.trimEnd]. destruct s as [|b t].
  - cbn [Js.trimEnd]. by rewrite (Hc c eq_refl).
  - rewrite IH; [reflexivity|]. intros a Ha. by apply Hc.
Qed.

Lemma trim_tight (s : string) : tight s → Js.trim s = s.
Proof.
  intros [Hfirst Hlast]. unfold Js.trim.
  by rewrite (trimStart_tight s Hfirst), (trimEnd_tight s Hlast).
Qed.

Lemma trim_idem (s : string) : Js.trim (Js.trim s) = Js.trim s.
Proof. apply trim_tight, trim_spec. Qed.

Lemma coerce_Str (s : string) : coerce (Js.Str s) = Js.trim s.
Proof. by destruct s. Qed.

Lemma cleaned_texts (l : list string) :
  cleaned (normalizeList (texts l)) = List.filter nonEmpty (List.map Js.trim l).
Proof.
  unfold texts, normalizeList. cbn [cleaned]. rewrite map_map.
  f_equal. apply map_ext. intros s. apply coerce_Str.
Qed.

Lemma lowers_texts (l : list string) :
  lowers (normalizeList (texts l))
  = List.filter nonEmpty (List.map Js.trim (List.map Js.toLowerCase l)).
Proof.
  rewrite normalizeList_lowers, cleaned_texts.
  induction l as [|s l IH]; [reflexivity|].
  cbn [List.map List.filter]. rewrite <- trim_lower, nonEmpty_lower.
  destruct (nonEmpty (Js.trim s)); cbn [List.map]; by rewrite IH.
Qed.

Lemma filter_trim_fixed (l : list string) :
  Forall (λ s, Js.trim s = s ∧ nonEmpty s = true) l →
  List.filter nonEmpty (List.map Js.trim l) = l.
Proof.
  induction 1 as [|s l [Htrim Hs] _ IH]; [reflexivity|].
  cbn [List.map List.filter]. by rewrite Htrim, Hs, IH.
Qed.

Lemma cleaned_fixed (batch : Js.Value) :
  Forall (λ s, Js.trim s = s ∧ nonEmpty s = true) (cleaned (normalizeList batch)).
Proof.
  apply Forall_forall. intros s Hs. destruct batch; try by apply elem_of_nil in Hs.
  apply list_elem_of_In, filter_In in Hs as [Hs Hne]. split; [|assumption].
  apply list_elem_of_In, list_elem_of_fmap in Hs as (v & -> & _). apply trim_idem.
Qed.

Lemma lowers_fixed (batch : Js.Value) :
  Forall (λ s, Js.trim s = s ∧ nonEmpty s = true) (lowers (normalizeList batch)).
Proof.
  rewrite normalizeList_lowers. apply Forall_forall.
  intros x (s & -> & Hs)%list_elem_of_fmap.
  pose proof (cleaned_fixed batch) as Hfixed.
  rewrite Forall_forall in Hfixed. destruct (Hfixed s Hs) as [Htrim Hne].
  by rewrite <- trim_lower, Htrim, nonEmpty_lower.
Qed.

(** X10. The normaliser on its own output and on letter case. The
    cleaned list sent back as a batch normalises to itself, cleaned and
    lowered alike; the lowered list sent back as a batch is its own cleaned
    and its own lowered list; and lower-casing the texts of a batch before
    normalising gives as cleaned list the lowered list of the batch, so two
    batches of texts equal up to letter case have the same lowered list. *)
Theorem normalizeList_round_trip (batch : Js.Value) (xs ys : list string) :
  normalizeList (texts (cleaned (normalizeList batch))) = normalizeList batch
  ∧ normalizeList (texts (lowers (normalizeList batch)))
    = {| cleaned := lowers (normalizeList batch);
         lowers := lowers (normalizeList batch) |}
  ∧ cleaned (normalizeList (texts (List.map Js.toLowerCase xs)))
    = lowers (normalizeList (texts xs))
  ∧ (List.map Js.toLowerCase xs = List.map Js.toLowerCase ys →
     lowers (normalizeList (texts xs)) = lowers (normalizeList (texts ys))).
Proof.
  assert (∀ l, Forall (λ s, Js.trim s = s ∧ nonEmpty s = true) l →
               normalizeList (texts l)
               = {| cleaned := l; lowers := List.map Js.toLowerCase l |}) as Hfixed.
  { intros l Hl. pose proof (cleaned_texts l) as Hc.
    rewrite (filter_trim_fixed l Hl) in Hc.
    pose proof (normalizeList_lowers (texts l)) as Hlow. rewrite Hc in Hlow.
    destruct (normalizeList (texts l)). cbn [cleaned lowers] in *. congruence. }
  split_and!.
  - rewrite (Hfixed _ (cleaned_fixed batch)), <- normalizeList_lowers.
    by destruct (normalizeList batch).
  - rewrite (Hfixed _ (lowers_fixed batch)). f_equal.
    pose proof (lowers_lower batch) as Hlow.
    induction Hlow as [|s l Hs _ IH]; [reflexivity|].
    cbn [List.map]. by rewrite Hs, IH.
  - by rewrite cleaned_texts, lowers_texts.
  - intros Hcase. by rewrite !lowers_texts, Hcase.
Qed.

(** ** Batches with the same keys *)







Section SameLowers.
Variables (env : Env) (user : string) (a b : Js.Value) (w : World).
Hypothesis same : lowers (normalizeList a) = lowers (normalizeList b).



End SameLowers.



(** ** The order of a report *)











(** ** The listing, sort by sort *)


Lemma ListingOf_runs `{Platform} (user : string) (query : Query) (w : World) run :
  validFilters query → run ∈ listRuns user query w → ListingOf user query w run.
Proof.
  intros Hvalid Hrun. destruct (ListingOf_both user query w Hvalid) as [Hr Hb].
  unfold listRuns in Hrun.
  apply elem_of_cons in Hrun as [->|Hrun]; [assumption|].
  by apply list_elem_of_singleton in Hrun as ->.
Qed.



(** ** The listing, query by query *)

Lemma truthyText_lower (s : string) : truthyText (Js.toLowerCase s) = truthyText s.
Proof. by destruct s. Qed.

Section PlainQuery.
Context `{Platform}.
Variables (user : string) (query : Query).

Lemma sortParam_plain : sortParam (plainQuery query) = sortParam query.
Proof. reflexivity. Qed.

Lemma fromDate_plain : fromDate (plainQuery query) = fromDate query.
Proof.
  unfold fromDate, plainQuery. cbn [from].
  destruct (from query) as [f|]; [|reflexivity]. cbn [present].
  destruct (truthyText f) eqn:Hf; [by rewrite Hf|reflexivity].
Qed.

Lemma toDate_plain : toDate (plainQuery query) = toDate query.
Proof.
  unfold toDate, plainQuery. cbn [to].
  destruct (to query) as [t|]; [|reflexivity]. cbn [present].
  destruct (truthyText t) eqn:Ht; [by rewrite Ht|reflexivity].
Qed.

Lemma qRegex_plain : qRegex (plainQuery query) = qRegex query.
Proof.
  unfold qRegex, qParam, plainQuery. cbn [q].
  destruct (q query) as [p|]; [|reflexivity]. cbn [present default].
  destruct (truthyText p) eqn:Hp; cbn [fmap option_fmap option_map default];
    unfold id.
  - by rewrite truthyText_lower, Hp, toLowerCase_idem.
  - by rewrite Hp.
Qed.

Lemma mineFilter_plain : mineFilter user (plainQuery query) = mineFilter user query.
Proof. unfold mineFilter. by rewrite fromDate_plain, toDate_plain, qRegex_plain. Qed.

Lemma globalFilter_plain : globalFilter (plainQuery query) = globalFilter query.
Proof. unfold globalFilter. by rewrite qRegex_plain. Qed.
End PlainQuery.

(** X14. What a listing reads of its query. A [from], [to] or [q] given
    as the empty text counts as absent, and the pattern is put in lower
    case before it reaches the store: a request and the same request with
    its empty parameters dropped and its pattern lower-cased get the same
    answer and leave the same world, from either router. *)
Theorem listing_reads_plain_query `{Platform} (user : string) (query : Query)
        (w : World) :
  Routes.getWords user query w = Routes.getWords user (plainQuery query) w
  ∧ Backend.getWords user query w = Backend.getWords user (plainQuery query) w
  ∧ (validFilters query ↔ validFilters (plainQuery query)).
Proof.
  split_and!.
  - unfold Routes.getWords.
    by rewrite mineFilter_plain, globalFilter_plain, sortParam_plain.
  - unfold Backend.getWords.
    by rewrite mineFilter_plain, globalFilter_plain, sortParam_plain.
  - unfold validFilters.
    by rewrite fromDate_plain, toDate_plain, globalFilter_plain.
Qed.

(** ** The two lists of a response *)




(** ** The owner names of a response *)

Lemma blank_app (p r : string) :
  blank (p ++ r)%string = blank p && blank r.
Proof.
  induction p as [|c p IH]; [reflexivity|].
  rewrite append_cons. cbn [blank]. by rewrite IH, andb_assoc.
Qed.

Lemma trimStart_blank (s : string) : blank s = true → Js.trimStart s = "".
Proof.
  induction s as [|c s IH]; [reflexivity|]. cbn [blank Js.trimStart].
  intros [-> Hs]%andb_true_iff. by apply IH.
Qed.

(** A text trims to nothing exactly when it is white space only. *)
Lemma trim_blank (s : string) : truthyText (Js.trim s) = negb (blank s).
Proof.
  destruct (blank s) eqn:Hs.
  - unfold Js.trim. by rewrite (trimStart_blank s Hs).
  - unfold truthyText. destruct (String.eqb_spec (Js.trim s) "") as [Ht|]; [|reflexivity].
    destruct (trim_spec s) as [(p & r & Heq & Hp & Hr) _].
    rewrite Ht in Heq. change (""%string ++ r)%string with r in Heq.
    rewrite Heq, blank_app, Hp, Hr in Hs. discriminate.
Qed.

Lemma ownerNameOf_nonempty (ownerMap : gmap string string) (d : Word.Doc) :
  ownerNameOf ownerMap d ≠ "".
Proof.
  unfold ownerNameOf. destruct (ownerMap !! Word.userId d) as [l|]; [|done].
  unfold truthyText. by destruct (String.eqb_spec l "").
Qed.

(** X16. The owner name of an entry. For every List request whose
    dates parse and whose pattern the store accepts, the user records
    having one record per identifier: no entry of either list has an empty
    owner name; an entry of the global list whose owner has a user record
    carries the name of that record, trimmed, when it is not white space
    only, its email otherwise, and "Unknown" when that is empty too; an
    entry of the global list whose owner has no user record carries
    "Unknown". *)
Theorem owner_names `{Platform} (user : string) (query : Query) (w : World) :
  validFilters query →
  NoDup (List.map User._id (users w)) →
  ∀ run, run ∈ listRuns user query w →
    ∃ mine all,
      listsOf run = Some (mine, all)
      ∧ (∀ e, e ∈ mine ++ all → Entry.ownerName e ≠ "")
      ∧ (∀ e u, e ∈ all → u ∈ users w →
                Entry.userId e = Some (User._id u) → User._id u ≠ "" →
                let label := match User.name u with
                             | Some n => if blank n then User.email u else Js.trim n
                             | None => User.email u
                             end in
                Entry.ownerName e = if truthyText label then label else "Unknown")
      ∧ (∀ e, e ∈ all →
              (∀ u, u ∈ users w → Entry.userId e ≠ Some (User._id u)) →
              Entry.ownerName e = "Unknown").
Proof.
  intros Hvalid Hnd run Hrun.
  pose proof (ListingOf_runs user query w run Hvalid Hrun) as Hlisting.
  destruct Hlisting as (mineDocs & allDocs & ownerMap & Hanswer & _ & _ & _ & _
                        & _ & _ & _ & _ & Hlabel & Hunique).
  exists (attachOwner ownerMap mineDocs), (attachOwner ownerMap allDocs).
  split; [unfold listsOf; by rewrite Hanswer|].
  unfold attachOwner. split_and!.
  - intros e [(d & -> & _)%list_elem_of_fmap|(d & -> & _)%list_elem_of_fmap]%elem_of_app;
      apply ownerNameOf_nonempty.
  - intros e u (d & -> & Hd)%list_elem_of_fmap Hu. cbn [Entry.userId Entry.ownerName].
    intros [= Hid] Hne. unfold ownerNameOf.
    rewrite (Hunique Hnd d u Hd) by (try assumption; congruence).
    assert (ownerLabel u
            = match User.name u with
              | Some n => if blank n then User.email u else Js.trim n
              | None => User.email u
              end) as ->; [|reflexivity].
    unfold ownerLabel. destruct (User.name u) as [n|]; [|reflexivity].
    rewrite trim_blank. by destruct (blank n).
  - intros e (d & -> & Hd)%list_elem_of_fmap Hnone.
    cbn [Entry.userId Entry.ownerName] in *. unfold ownerNameOf.
    destruct (ownerMap !! Word.userId d) as [l|] eqn:Hl; [|reflexivity].
    destruct (Hlabel _ _ Hl) as (u & Hu & Hid & _).
    destruct (Hnone u Hu). by rewrite Hid.
Qed.

Lemma owner_names_witness :
  ∃ mine all,
    listsOf (@Routes.getWords demoPlatform "u1" fromJanuary listWorld) = Some (mine, all)
    ∧ ∀ e, e ∈ mine ++ all → Entry.ownerName e ≠ "".
Proof.
  assert (@validFilters demoPlatform fromJanuary) as Hvalid.
  { split_and!; [vm_compute; reflexivity..|]. by eexists. }
  assert (NoDup (List.map User._id (users listWorld))) as Hnd.
  { apply (bool_decide_unpack _). vm_compute. exact I. }
  assert (@Routes.getWords demoPlatform "u1" fromJanuary listWorld
          ∈ @listRuns demoPlatform "u1" fromJanuary listWorld) as Hrun by left.
  destruct (@owner_names demoPlatform "u1" fromJanuary listWorld Hvalid Hnd _ Hrun)
    as (mine & all & Hlists & Hnames & _).
  by exists mine, all.
Defined.

(** ** A listing that fails *)





Example badDate_listing :
  @Routes.getWords demoPlatform "u1" badDate listWorld
  = (Returned fetchFailed, listWorld)
  ∧ @Backend.getWords demoPlatform "u1" badDate listWorld
    = (Returned fetchFailed, listWorld).
Proof. vm_compute. by split. Qed.

(** ** The index, over the life of the process *)

Lemma indexStep_ensured (s : IndexState) (e : IndexEvent) :
  indexEnsured s = true →
  indexEnsured (indexStep s e) = true ∧ issued (indexStep s e) = issued s.
Proof.
  intros Hs. destruct e as [|fulfilled]; cbn [indexStep].
  - unfold ensureBegin. by rewrite Hs.
  - unfold ensureSettle. destruct (pending s); [done|]. by destruct fulfilled.
Qed.

Lemma indexRun_ensured (events : list IndexEvent) (s : IndexState) :
  indexEnsured s = true →
  indexEnsured (indexRun s events) = true ∧ issued (indexRun s events) = issued s.
Proof.
  revert s. induction events as [|e events IH]; intros s Hs; [done|].
  destruct (indexStep_ensured s e Hs) as [Hflag Hissued].
  destruct (IH _ Hflag) as [? ?]. split; [done|].
  unfold indexRun in *. cbn [fold_left]. congruence.
Qed.

Lemma indexStep_unfulfilled (s : IndexState) (e : IndexEvent) :
  e ≠ Settles true → indexEnsured s = false →
  indexEnsured (indexStep s e) = false
  ∧ issued (indexStep s e) = issued s + arrivals [e].
Proof.
  intros He Hs. unfold arrivals. destruct e as [|[|]]; [|done|]; cbn [indexStep].
  - unfold ensureBegin. rewrite Hs. cbn. split; [done|lia].
  - unfold ensureSettle. destruct (pending s); cbn; split; (done || lia).
Qed.

Lemma indexRun_unfulfilled (events : list IndexEvent) (s : IndexState) :
  Settles true ∉ events → indexEnsured s = false →
  indexEnsured (indexRun s events) = false
  ∧ issued (indexRun s events) = issued s + arrivals events.
Proof.
  revert s. induction events as [|e events IH]; intros s Hnone Hs.
  - split; [done|]. unfold arrivals. cbn. lia.
  - apply not_elem_of_cons in Hnone as [He Hnone].
    destruct (indexStep_unfulfilled s e) as [Hflag Hissued]; [congruence|assumption|].
    destruct (IH (indexStep s e) Hnone Hflag) as [Hrun Hcount].
    unfold indexRun in *. cbn [fold_left]. split; [assumption|].
    rewrite Hcount, Hissued. unfold arrivals. cbn [List.filter].
    destruct e as [|fulfilled]; cbn [length List.filter]; lia.
Qed.

Lemma indexRun_issued (events : list IndexEvent) (s : IndexState) :
  issued s ≤ issued (indexRun s events) ≤ issued s + arrivals events.
Proof.
  revert s. induction events as [|e events IH]; intros s.
  - unfold arrivals. cbn. lia.
  - unfold indexRun, arrivals in *. cbn [fold_left List.filter].
    specialize (IH (indexStep s e)).
    destruct e as [|fulfilled]; cbn [indexStep length] in *.
    + unfold ensureBegin in *. destruct (indexEnsured s); cbn [issued] in *; lia.
    + unfold ensureSettle in *. destruct (pending s); [lia|].
      destruct fulfilled; cbn [issued] in *; lia.
Qed.

Lemma arrivals_replicate (n : nat) : arrivals (replicate n Arrives) = n.
Proof. unfold arrivals. induction n as [|n IH]; [done|]. cbn. by rewrite IH. Qed.

(** X18. The index, over any sequence of requests arriving and calls of
    [createIndex] settling, from any state of the flag: once the flag is
    set it stays set and no further call is issued; as long as no call is
    fulfilled the flag stays unset and every arriving request issues a call
    of its own, so a failure is tried again at each request, and [n]
    requests arriving before the first call settles issue [n] calls; the
    calls issued never outnumber the requests. *)
Theorem index_flag_life (s : IndexState) (events : list IndexEvent) :
  (indexEnsured s = true →
   indexEnsured (indexRun s events) = true ∧ issued (indexRun s events) = issued s)
  ∧ (Settles true ∉ events → indexEnsured s = false →
     indexEnsured (indexRun s events) = false
     ∧ issued (indexRun s events) = issued s + arrivals events)
  ∧ (indexEnsured s = false → indexEnsured (indexRun s events) = true →
     Settles true ∈ events)
  ∧ issued s ≤ issued (indexRun s events) ≤ issued s + arrivals events
  ∧ (∀ n, issued (indexRun freshIndexState (replicate n Arrives)) = n)
  ∧ indexEnsured (indexRun freshIndexState (Arrives :: Settles true :: events)) = true
  ∧ issued (indexRun freshIndexState (Arrives :: Settles true :: events)) = 1.
Proof.
  split_and!.
  - apply indexRun_ensured.
  - apply indexRun_unfulfilled.
  - intros Hs Hset. destruct (decide (Settles true ∈ events)) as [|Hnone]; [assumption|].
    destruct (indexRun_unfulfilled events s Hnone Hs) as [Hflag _]. congruence.
  - apply indexRun_issued.
  - apply indexRun_issued.
  - intros n.
    destruct (indexRun_unfulfilled (replicate n Arrives) freshIndexState) as [_ ->];
      [|done|by rewrite arrivals_replicate].
    by intros [=]%elem_of_replicate_inv.
  - by apply (indexRun_ensured events
                {| indexEnsured := true; pending := 0; issued := 1; warned := 0 |}).
  - by apply (indexRun_ensured events
                {| indexEnsured := true; pending := 0; issued := 1; warned := 0 |}).
Qed.

(** ** The session *)

(** X19. The gate before the routes. The middleware hands a request to
    its route exactly when the request has a cookie header that is not
    empty, the header holds a token that is not empty, and the token
    verifies; the route then runs with the user of the token's payload, and
    its answer and its world are those of the request. Any other request is
    answered 401 "Missing token" without the route being run, the world
    left as it was. The index is looked after in both cases. *)
Theorem middleware_gate `{Session} {R : Type} (s : IndexState)
        (header : option string) (next : Requester.t → M R) (w : World) :
  let admitted (user : Requester.t) :=
    ∃ h token payload,
      header = Some h ∧ h ≠ "" ∧ cookie_parse h !! "token" = Some token
      ∧ token ≠ "" ∧ jwt_verify token = Some payload
      ∧ user = {| Requester.id := Token.sub payload;
                  Requester.email := Token.email payload;
                  Requester.name := Token.name payload |} in
  (middleware s header next).1 = ensureBegin s
  ∧ (∀ user, admitted user →
       (middleware s header next).2 w
       = match next user w with
         | (Returned answer, w') => (Returned (Passed answer), w')
         | (Thrown e, w') => (Thrown e, w')
         end)
  ∧ ((∀ user, ¬ admitted user) →
     ∀ route : Requester.t → M R,
       (middleware s header route).2 w
       = (Returned (Denied {| statusCode := 401;
                              json := Body.ofError "Missing token" |}), w))
  ∧ ((∃ user, admitted user) ∨ (∀ user, ¬ admitted user)).
Proof.
  cbv zeta.
  assert (∀ user,
            (∃ h token payload,
               header = Some h ∧ h ≠ "" ∧ cookie_parse h !! "token" = Some token
               ∧ token ≠ "" ∧ jwt_verify token = Some payload
               ∧ user = {| Requester.id := Token.sub payload;
                           Requester.email := Token.email payload;
                           Requester.name := Token.name payload |})
            ↔ getUserFromReq header = Some user) as Hgate.
  { intros user. unfold getUserFromReq, truthyText. split.
    - intros (h & token & payload & -> & Hh & Htoken & Hne & Hverify & ->).
      destruct (String.eqb_spec h "") as [|_]; [done|]. cbn [negb].
      rewrite Htoken. destruct (String.eqb_spec token "") as [|_]; [done|].
      cbn [negb]. by rewrite Hverify.
    - destruct header as [h|]; [|by rewrite lookup_empty].
      destruct (String.eqb_spec h "") as [|Hh]; cbn [negb];
        [by rewrite lookup_empty|].
      destruct (cookie_parse h !! "token") as [token|] eqn:Htoken; [|done].
      destruct (String.eqb_spec token "") as [|Hne]; cbn [negb]; [done|].
      destruct (jwt_verify token) as [payload|] eqn:Hverify; [|done].
      intros [= <-]. by exists h, token, payload. }
  split_and!.
  - reflexivity.
  - intros user Huser%Hgate. unfold middleware. cbn [snd]. rewrite Huser.
    unfold bind, ret. by destruct (next user w) as [[answer|e] w'].
  - intros Hnone route. unfold middleware. cbn [snd].
    destruct (getUserFromReq header) as [user|] eqn:Huser; [|reflexivity].
    by destruct (Hnone user); apply Hgate.
  - destruct (getUserFromReq header) as [user|] eqn:Huser.
    + left. exists user. by apply Hgate.
    + right. intros user Hadmitted%Hgate. congruence.
Qed.

(** ** The action of the shared route *)

(** X20. The shared route of [backend/routes/words.js] validates when
    its action, as a text and in lower case, reads "validate", and submits
    on every other action: an absent one, an empty one, a misspelt one. *)
Theorem any_other_action_submits (env : Env) (user : string)
        (action batch : Js.Value) (w : World) :
  (Backend.actionOf action = "validate" →
   Backend.postWords env user action batch w = Backend.validate env user batch w)
  ∧ (Backend.actionOf action ≠ "validate" →
     Backend.postWords env user action batch w = Backend.submit env user batch w)
  ∧ (∀ s, action = Js.Str s → Backend.actionOf action = Js.toLowerCase s)
  ∧ (action = Js.Undefined ∨ action = Js.Null → Backend.actionOf action = "").
Proof.
  split_and!.
  - intros Haction. rewrite backend_action, Haction. reflexivity.
  - intros Haction. rewrite backend_action.
    by destruct (String.eqb_spec (Backend.actionOf action) "validate").
  - by intros s ->.
  - by intros [-> | ->].
Qed.

(** ** A submission, then a listing *)

Lemma validFilters_bare `{Platform} (query : Query) :
  from query = None → to query = None → q query = None →
  validFilters query
  ∧ ∀ d, inRange query d ∧ matchesQ query d.
Proof.
  intros Hfrom Hto Hq.
  assert (fromDate query = None) as Hf by (unfold fromDate; by rewrite Hfrom).
  assert (toDate query = None) as Ht by (unfold toDate; by rewrite Hto).
  assert (compiled (globalFilter query) = Some None) as Hc.
  { unfold compiled, globalFilter, qRegex, qParam. by rewrite Hq. }
  split.
  - unfold validFilters. rewrite Hf, Ht, Hc. split_and!; [done|done|by eexists].
  - intros d. unfold inRange, matchesQ. rewrite Hf, Ht, Hc. by split_and!.
Qed.

(** X21. A submission, then a listing. Once a submission has answered
    [{added: 10}], a later List request of the same user without dates and
    without pattern shows every cleaned entry of the batch: in the
    requester's list unless that list is full, at 2000 entries, and in the
    global list unless that list is full, at 5000 entries; the entry has
    the cleaned text as its word, in its own casing, its lower-case form as
    its key, and the user as its owner. Either router for either request,
    whatever other requests write meanwhile. *)
Theorem submitted_words_listed `{Platform} (env : Env) (user : string)
        (batch : Js.Value) (query : Query) (w : World)
        (first : Outcome Response * World) :
  first ∈ submitRuns env user batch w →
  first.1 = Returned {| statusCode := 200; json := Body.ofAdded 10 |} →
  from query = None → to query = None → q query = None →
  ∀ run, run ∈ listRuns user query first.2 →
    ∃ mine all,
      listsOf run = Some (mine, all)
      ∧ ∀ c, c ∈ cleaned (normalizeList batch) →
             let shown (l : list Entry.t) :=
               ∃ e, e ∈ l ∧ Entry.word e = c
                    ∧ Entry.wordLower e = Js.toLowerCase c
                    ∧ Entry.userId e = Some user in
             (shown mine ∨ length mine = 2000)
             ∧ (shown all ∨ length all = 5000).
Proof.
  intros Hfirst Hanswer Hfrom Hto Hq run Hrun.
  destruct (submit_accepted env user batch w first Hfirst Hanswer)
    as (_ & _ & _ & Hwords).
  destruct (validFilters_bare query Hfrom Hto Hq) as [Hvalid Hpass].
  pose proof (ListingOf_runs user query first.2 run Hvalid Hrun) as Hlisting.
  destruct Hlisting as (mineDocs & allDocs & ownerMap & Hlists & _ & Hmine & _
                        & Hall & _).
  exists (attachOwner ownerMap mineDocs), (attachOwner ownerMap allDocs).
  split; [unfold listsOf; by rewrite Hlists|].
  intros c Hc. cbv zeta.
  apply list_elem_of_lookup in Hc as [i Hi].
  pose proof (createdOf_lookup env user (cleaned (normalizeList batch)) i) as Hd.
  rewrite Hi in Hd. cbn [fmap option_fmap option_map] in Hd.
  apply list_elem_of_lookup_2 in Hd.
  set (d := {| Word._id := newId env i; Word.userId := user; Word.word := c;
               Word.wordLower := Js.toLowerCase c; Word.addedAt := clock env i;
               Word.learned := false; Word.notes := "" |}) in *.
  assert (d ∈ words first.2) as Hstored by (rewrite Hwords; apply elem_of_app; by right).
  assert (d ∈ words (settle first.2)) as Hone.
  { destruct (settle_words_prefix first.2) as [extra ->]. apply elem_of_app. by left. }
  assert (d ∈ words (settle (settle first.2))) as Htwo.
  { destruct (settle_words_prefix (settle first.2)) as [extra ->].
    apply elem_of_app. by left. }
  destruct (Hpass d) as [Hrange Hmatch].
  assert (∀ docs, d ∈ docs →
                  ∃ e, e ∈ attachOwner ownerMap docs ∧ Entry.word e = c
                       ∧ Entry.wordLower e = Js.toLowerCase c
                       ∧ Entry.userId e = Some user) as Hshown.
  { intros docs Hin.
    exists {| Entry._id := Word._id d; Entry.word := Word.word d;
              Entry.wordLower := Word.wordLower d;
              Entry.userId := Some (Word.userId d);
              Entry.addedAt := Some (Js.toISOString (Word.addedAt d));
              Entry.ownerName := ownerNameOf ownerMap d |}.
    split; [|by split_and!].
    unfold attachOwner. apply list_elem_of_fmap. by exists d. }
  unfold attachOwner at 2 4. rewrite !length_map. split.
  - destruct (Hmine d Hone eq_refl Hrange Hmatch) as [Hin|[Hfull _]];
      [left; by apply Hshown|by right].
  - destruct (Hall d Htwo Hmatch) as [Hin|[Hfull _]];
      [left; by apply Hshown|by right].
Qed.

Lemma submitted_words_listed_witness :
  ∃ mine all,
    listsOf (@Backend.getWords demoPlatform "u1" alphaQuery
               (Routes.postWords demoEnv "u1" scenarioA stillWorld).2)
    = Some (mine, all)
    ∧ ∀ c, c ∈ cleaned (normalizeList scenarioA) →
           ((∃ e, e ∈ mine ∧ Entry.word e = c
                  ∧ Entry.wordLower e = Js.toLowerCase c
                  ∧ Entry.userId e = Some "u1") ∨ length mine = 2000)
           ∧ ((∃ e, e ∈ all ∧ Entry.word e = c
                    ∧ Entry.wordLower e = Js.toLowerCase c
                    ∧ Entry.userId e = Some "u1") ∨ length all = 5000).
Proof.
  assert (Routes.postWords demoEnv "u1" scenarioA stillWorld
          ∈ submitRuns demoEnv "u1" scenarioA stillWorld) as Hfirst by left.
  assert ((Routes.postWords demoEnv "u1" scenarioA stillWorld).1
          = Returned {| statusCode := 200; json := Body.ofAdded 10 |}) as Hanswer
    by (vm_compute; reflexivity).
  apply (@submitted_words_listed demoPlatform demoEnv "u1" scenarioA alphaQuery
           stillWorld _ Hfirst Hanswer eq_refl eq_refl eq_refl).
  right. left.
Defined.
